(** * EpubConsolidator2: chapter segmentation and title resolution

    A shallow embedding of [extract_text.py] and the properties of its
    filename sanitizer, navigation index, title cascade and segmentation
    driver.

    Python values are modelled as follows.
    - [str] is a list of Unicode code points ([N]); [len] returns a [Z].
    - [int] is [Z]; slices follow Python for negative bounds.
    - [dict] is stdpp's [gmap]; [None]-or-value is [option].
    - An exception raised inside a function makes it return [None].
    - The character classes of [str.isalnum] and [str.strip], the
      [pathlib] operations and the markup parser belong to the Python
      runtime and its libraries: they are interfaces ([Unicode],
      [PathLib], [MarkupParser]) and every theorem holds for each
      implementation of them. What a theorem needs of ['html.parser'],
      that it builds its trees with tag names in lower case, is the
      hypothesis [html_parser_law]. *)

From Stdlib Require Import ZArith NArith Ascii String Decimal DecimalN.
From stdpp Require Import base option list gmap.

#[local] Open Scope Z_scope.

(* ===================================================================== *)
(** ** Python strings *)
(* ===================================================================== *)

Abbreviation char := N.
Abbreviation str := (list N).

(** [u "abc"] is the Python literal ['abc'] (ASCII literals only). *)
Fixpoint u (s : string) : str :=
  match s with
  | EmptyString => []
  | String a s' => N_of_ascii a :: u s'
  end.
Arguments u : simpl never.

(** The parts of the Unicode database the program consults:
    [c.isalnum()] and the white space removed by [str.strip()]. *)
Class Unicode := {
  isalnum : char → bool;
  isspace : char → bool;
}.

Definition len {A} (s : list A) : Z := Z.of_nat (length s).

(** Truth value of a string: [bool(s)]. *)
Definition truthy (s : str) : bool :=
  match s with [] => false | _ => true end.

(** [s[:n]], for any integer [n]. *)
Definition slice_to (s : str) (n : Z) : str :=
  if 0 <=? n then take (Z.to_nat n) s
  else take (length s - Z.to_nat (- n))%nat s.

Fixpoint lstrip_with (p : char → bool) (s : str) : str :=
  match s with
  | [] => []
  | c :: s' => if p c then lstrip_with p s' else s
  end.

Definition rstrip_with (p : char → bool) (s : str) : str :=
  reverse (lstrip_with p (reverse s)).

(** [s.rstrip(chars)] *)
Definition rstrip (chars : str) (s : str) : str :=
  rstrip_with (λ c, bool_decide (c ∈ chars)) s.

(** [s.strip()] *)
Definition strip `{Unicode} (s : str) : str :=
  rstrip_with isspace (lstrip_with isspace s).

(** [sep.join(parts)] *)
Fixpoint join (sep : str) (parts : list str) : str :=
  match parts with
  | [] => []
  | [p] => p
  | p :: ps => p ++ sep ++ join sep ps
  end.

(** [s.split(sep)] for a one-character separator: never empty. *)
Fixpoint split (sep : char) (s : str) : list str :=
  match s with
  | [] => [[]]
  | c :: s' =>
      if N.eqb c sep then [] :: split sep s'
      else match split sep s' with
           | [] => [[c]]
           | w :: ws => (c :: w) :: ws
           end
  end.

(** [s.split(sep)[0]] and [s.split(sep)[-1]] *)
Definition split_first (sep : char) (s : str) : str :=
  default [] (head (split sep s)).
Definition split_last (sep : char) (s : str) : str :=
  default [] (last (split sep s)).

(** Decimal digits of a natural number, most significant first. *)
Fixpoint uint_chars (d : Decimal.uint) : str :=
  match d with
  | Nil => []
  | D0 d => 48%N :: uint_chars d
  | D1 d => 49%N :: uint_chars d
  | D2 d => 50%N :: uint_chars d
  | D3 d => 51%N :: uint_chars d
  | D4 d => 52%N :: uint_chars d
  | D5 d => 53%N :: uint_chars d
  | D6 d => 54%N :: uint_chars d
  | D7 d => 55%N :: uint_chars d
  | D8 d => 56%N :: uint_chars d
  | D9 d => 57%N :: uint_chars d
  end.

(** [f"{n:03}"]: sign-aware zero padding to width 3. *)
Definition format_03 (n : Z) : str :=
  let digits := uint_chars (N.to_uint (Z.abs_N n)) in
  if n <? 0 then u "-" ++ replicate (2 - length digits)%nat 48%N ++ digits
  else replicate (3 - length digits)%nat 48%N ++ digits.

(* ===================================================================== *)
(** ** Filename sanitizer *)
(* ===================================================================== *)

Definition underscore : char := 95%N.

(** [sanitize_filename(title, max_length=100)] *)
Definition sanitize_filename `{Unicode} (title : str) (max_length : Z) : str :=
  let safe_title := (λ c, if isalnum c then c else underscore) <$> title in
  if len safe_title >? max_length then
    let safe_title := slice_to safe_title max_length in
    rstrip (u "_") safe_title
  else safe_title.

(* ===================================================================== *)
(** ** The parsed markup tree (BeautifulSoup) *)
(* ===================================================================== *)

(** An attribute value is a string, or a list of strings for the
    multi-valued attributes such as [class]. *)
Inductive AttrValue :=
| AttrStr (s : str)
| AttrList (l : list str).

#[global] Instance AttrValue_eq_dec : EqDecision AttrValue.
Proof. solve_decision. Defined.

(** A node of the tree: a text node or a tag with its attribute dict and
    its children. The [BeautifulSoup] object itself is a tag named
    ["[document]"]. *)
#[warnings="-register-all"]
Inductive PageElement :=
| NavigableString (s : str)
| Tag (name : str) (attrs : gmap str AttrValue) (contents : list PageElement).

Definition tag_name (e : PageElement) : option str :=
  match e with
  | Tag n _ _ => Some n
  | NavigableString _ => None
  end.

Definition tag_contents (e : PageElement) : list PageElement :=
  match e with
  | Tag _ _ cs => cs
  | NavigableString _ => []
  end.

(** [x == y] on nodes, as [Tag.__eq__] defines it: same name, same
    attributes, same number of children, and equal children pairwise;
    text nodes compare as strings; a tag never equals a text node. *)
Fixpoint element_eqb (x y : PageElement) : bool :=
  match x, y with
  | NavigableString s, NavigableString t => bool_decide (s = t)
  | Tag n a c, Tag n' a' c' =>
      bool_decide (n = n') && bool_decide (a = a') &&
      (fix all2 (l l' : list PageElement) : bool :=
         match l, l' with
         | [], [] => true
         | e :: l, e' :: l' => element_eqb e e' && all2 l l'
         | _, _ => false
         end) c c'
  | _, _ => false
  end.

(** An element as the queries return it: the node and the tag that
    contains it ([find_parent()]). *)
Record Element := { node : PageElement; parent : PageElement }.

(** [root.descendants]: every node below [root], in document order. *)
Fixpoint descendants (root : PageElement) : list Element :=
  match root with
  | NavigableString _ => []
  | Tag _ _ cs =>
      flat_map (λ c, {| node := c; parent := root |} :: descendants c) cs
  end.

(** [root.find_all(...)] and [root.find(...)] for a matcher on nodes. *)
Definition find_all (matches : PageElement → bool) (root : PageElement)
  : list Element :=
  List.filter (λ e, matches (node e)) (descendants root).

Definition find (matches : PageElement → bool) (root : PageElement)
  : option Element :=
  head (find_all matches root).

(** Matcher of [find(['h1', ...])] and [find_all('em')]: a tag whose name
    is one of [names]. *)
Definition named (names : list str) (e : PageElement) : bool :=
  match e with
  | Tag n _ _ => bool_decide (n ∈ names)
  | NavigableString _ => false
  end.

(** How an attribute value matches a search string: a list matches when
    one of its items does, or when the items joined by a space do. *)
Definition attr_matches (v : AttrValue) (against : str) : bool :=
  match v with
  | AttrStr s => bool_decide (s = against)
  | AttrList l =>
      bool_decide (against ∈ l) || bool_decide (join (u " ") l = against)
  end.

(** Matcher of [find(name, {'class': cls})]. *)
Definition named_with_class (name cls : str) (e : PageElement) : bool :=
  match e with
  | Tag n a _ =>
      bool_decide (n = name) &&
      match a !! u "class" with
      | Some v => attr_matches v cls
      | None => false
      end
  | NavigableString _ => false
  end.

(** [tag.get(key)] *)
Definition get_attr (key : str) (e : PageElement) : option AttrValue :=
  match e with
  | Tag _ a _ => a !! key
  | NavigableString _ => None
  end.

(** The text nodes below (or at) [e], in document order. *)
Fixpoint all_strings (e : PageElement) : list str :=
  match e with
  | NavigableString s => [s]
  | Tag _ _ cs => flat_map all_strings cs
  end.

(** [e.get_text(separator, strip)]: with [strip] every text node is
    stripped and the empty ones are dropped before joining. *)
Definition get_text `{Unicode} (separator : str) (strip_each : bool)
    (e : PageElement) : str :=
  join separator
    (if strip_each then List.filter truthy (strip <$> all_strings e)
     else all_strings e).

(** The markup parser, [BeautifulSoup(markup, 'html.parser')]. *)
Class MarkupParser := { BeautifulSoup : str → PageElement }.

(* ===================================================================== *)
(** ** The archive (ebooklib) and the file system (pathlib) *)
(* ===================================================================== *)

Inductive ItemType := ITEM_DOCUMENT | ITEM_NAVIGATION | ITEM_OTHER.

#[global] Instance ItemType_eq_dec : EqDecision ItemType.
Proof. solve_decision. Defined.

(** One item of the archive. [get_body_content] and [get_content] are the
    decoded markup; [title] is [None] or a string. *)
Record EpubItem := {
  get_id : str;
  get_name : str;
  get_type : ItemType;
  title : option str;
  get_body_content : str;
  get_content : str;
}.

(** [dc_title] lists the values of [get_metadata('DC', 'title')];
    [spine] holds the [(item_id, linear)] pairs of the reading order. *)
Record EpubBook := {
  dc_title : list str;
  spine : list (str * str);
  items : list EpubItem;
}.

Definition get_item_with_id (book : EpubBook) (uid : str) : option EpubItem :=
  List.find (λ item, bool_decide (get_id item = uid)) (items book).

Definition get_items_of_type (book : EpubBook) (t : ItemType) : list EpubItem :=
  List.filter (λ item, bool_decide (get_type item = t)) (items book).

(** [pathlib]: [path_div p name] is [p / name]; [path_str p] is [str(p)]. *)
Class PathLib := {
  Path : Type;
  path_div : Path → str → Path;
  path_str : Path → str;
}.

(** What the program does to the file system, in order. *)
Inductive Effect `{PathLib} :=
| Mkdir (p : Path)
| WriteFile (p : Path) (content : str).

(* ===================================================================== *)
(** ** Navigation title index *)
(* ===================================================================== *)

(** The body of the [navPoint] loop: the key and the label of one entry.
    [None] when [find] returns [None] or [src] is missing, where Python
    raises [AttributeError]. *)
Definition nav_point_entry `{Unicode} (nav_point : PageElement)
  : option (str * str) :=
  text ← find (named [u "text"]) nav_point;
  let label := get_text [] true (node text) in
  content ← find (named [u "content"]) nav_point;
  src ← get_attr (u "src") (node content);
  match src with
  | AttrStr src =>
      let content_src := split_first 35%N src in
      Some (content_src, label)
  | AttrList _ => None
  end.

Fixpoint nav_points_into `{Unicode} (nav_map : gmap str str)
    (nav_points : list Element) : option (gmap str str) :=
  match nav_points with
  | [] => Some nav_map
  | nav_point :: rest =>
      entry ← nav_point_entry (node nav_point);
      nav_points_into (<[entry.1 := entry.2]> nav_map) rest
  end.

Fixpoint nav_items_into `{Unicode} `{MarkupParser} (nav_map : gmap str str)
    (nav_items : list EpubItem) : option (gmap str str) :=
  match nav_items with
  | [] => Some nav_map
  | item :: rest =>
      let soup := BeautifulSoup (get_content item) in
      nav_map ← nav_points_into nav_map (find_all (named [u "navPoint"]) soup);
      nav_items_into nav_map rest
  end.

(** [extract_titles_from_nav(book)] *)
Definition extract_titles_from_nav `{Unicode} `{MarkupParser}
    (book : EpubBook) : option (gmap str str) :=
  nav_items_into ∅ (get_items_of_type book ITEM_NAVIGATION).

(* ===================================================================== *)
(** ** Title resolution *)
(* ===================================================================== *)

Definition title_parents : list str :=
  [u "h1"; u "h2"; u "h3"; u "div"; u "header"; u "title"; u "nav"].

(** [is_likely_title(em_element)]. Every element that [find_all] returns
    has a tag for parent and is one of its children, so [parent_name] and
    [contents[0]] exist (see [descendants_parent]). *)
Definition is_likely_title `{Unicode} (em_element : Element) : bool :=
  if len (get_text [] true (node em_element)) >? 5 then
    let parent_name := tag_name (parent em_element) in
    if bool_decide (parent_name ∈ Some <$> title_parents) then true
    else
      match head (tag_contents (parent em_element)) with
      | Some first => element_eqb (node em_element) first
      | None => false
      end
  else false.

(** [a or b] on [None]-or-element values (an element is always true). *)
Definition or_else {A} (a b : option A) : option A :=
  match a with Some _ => a | None => b end.

Definition headings : list str := [u "h1"; u "h2"; u "h3"; u "h4"].

(** Lines 59-73: the element that gives the chapter title, if any. *)
Definition find_chapter_title `{Unicode} (soup : PageElement) : option Element :=
  let chapter_title := find (named headings) soup in
  let chapter_title :=
    match chapter_title with
    | Some _ => chapter_title
    | None =>
        or_else (find (named_with_class (u "p") (u "title")) soup)
          (or_else (find (named_with_class (u "div") (u "chapter-title")) soup)
                   (find (named_with_class (u "span") (u "chapter-title")) soup))
    end in
  match chapter_title with
  | Some _ => chapter_title
  | None =>
      let em_tags := find_all (named [u "em"]) soup in
      List.find is_likely_title em_tags
  end.

(** [epub_item.title or "Untitled"] *)
Definition intrinsic_title (epub_item : EpubItem) : str :=
  match title epub_item with
  | Some t => if truthy t then t else u "Untitled"
  | None => u "Untitled"
  end.

(** [epub_item.get_name().split('/')[-1].split('#')[0]] *)
Definition lookup_key (epub_item : EpubItem) : str :=
  split_first 35%N (split_last 47%N (get_name epub_item)).

(** Lines 53-82: the title of one fragment. *)
Definition resolve_title `{Unicode} (nav_titles : gmap str str)
    (epub_item : EpubItem) (soup : PageElement) : str :=
  let title := intrinsic_title epub_item in
  let chapter_title := find_chapter_title soup in
  let title :=
    match chapter_title with
    | None =>
        if bool_decide (nav_titles ≠ ∅) then
          let content_src := lookup_key epub_item in
          default title (nav_titles !! content_src)
        else title
    | Some _ => title
    end in
  match chapter_title with
  | Some chapter_title => get_text [] true (node chapter_title)
  | None => title
  end.

(* ===================================================================== *)
(** ** Segmentation driver *)
(* ===================================================================== *)

(** The variables of [extract_text_from_epub] that the loop updates, and
    the files written so far. *)
Record DriverState `{PathLib} := {
  file_counter : Z;
  non_chapter_content : str;
  effects : list Effect;
}.

Definition min_content_length : Z := 100.

(** Lines 89-97: the path of the chapter file for a title. *)
Definition chapter_file_name `{Unicode} `{PathLib} (output_folder : Path)
    (file_counter : Z) (title : str) : Path :=
  let safe_title := sanitize_filename title 100 in
  let file_name :=
    path_div output_folder
      (format_03 file_counter ++ u "_" ++ safe_title ++ u ".txt") in
  if len (path_str file_name) >? 255 then
    let safe_title :=
      sanitize_filename title
        (100 - (len (format_03 file_counter ++ u "_") + len (u ".txt"))) in
    path_div output_folder
      (format_03 file_counter ++ u "_" ++ safe_title ++ u ".txt")
  else file_name.

(** Line 52: the markup of an item. *)
Definition body_content_of (epub_item : EpubItem) : str :=
  if truthy (get_body_content epub_item) then get_body_content epub_item
  else get_content epub_item.

(** Line 84: the plain text of a parsed fragment. *)
Definition content_of `{Unicode} (soup : PageElement) : str :=
  strip (get_text (u " ") false soup).

(** The body of the spine loop (lines 48-104) for one spine entry. *)
Definition process_item `{Unicode} `{MarkupParser} `{PathLib}
    (book : EpubBook) (nav_titles : gmap str str) (output_folder : Path)
    (st : DriverState) (entry : str * str) : DriverState :=
  let item_id := entry.1 in
  match get_item_with_id book item_id with
  | Some epub_item =>
      if bool_decide (get_type epub_item = ITEM_DOCUMENT) then
        let body_content := body_content_of epub_item in
        if truthy body_content then
          let soup := BeautifulSoup body_content in
          let title := resolve_title nav_titles epub_item soup in
          let content := content_of soup in
          if len content >? min_content_length then
            let file_name :=
              chapter_file_name output_folder (file_counter st) title in
            {| file_counter := file_counter st + 1;
               non_chapter_content := non_chapter_content st;
               effects := effects st ++ [WriteFile file_name content] |}
          else
            {| file_counter := file_counter st;
               non_chapter_content :=
                 non_chapter_content st ++ content ++ [10%N; 10%N];
               effects := effects st |}
        else st
      else st
  | None => st
  end.

(** [book.spine[1:]] *)
Definition spine_after_first (book : EpubBook) : list (str * str) :=
  drop 1 (spine book).

(** Lines 106-110: write the aggregate file when there is any text. *)
Definition finalize `{Unicode} `{PathLib} (output_folder : Path)
    (st : DriverState) : list Effect :=
  if truthy (strip (non_chapter_content st)) then
    let non_chapter_file :=
      path_div output_folder (u "000_non_chapter_content.txt") in
    effects st ++ [WriteFile non_chapter_file (non_chapter_content st)]
  else effects st.

(** How a call ends: it returns, or an exception leaves it, in both cases
    after the listed effects. *)
Inductive Outcome `{PathLib} :=
| Returned (log : list Effect)
| Raised (log : list Effect).

Definition book_title_of (book : EpubBook) : str :=
  match dc_title book with
  | t :: _ => t
  | [] => u "Unknown_Book"
  end.

Definition output_folder_of `{Unicode} `{PathLib} (book : EpubBook)
    (output_base_folder : Path) : Path :=
  path_div output_base_folder (sanitize_filename (book_title_of book) 100).

(** The spine loop, from a given state. *)
Definition run_spine `{Unicode} `{MarkupParser} `{PathLib}
    (book : EpubBook) (nav_titles : gmap str str) (output_folder : Path)
    (st : DriverState) (entries : list (str * str)) : DriverState :=
  foldl (process_item book nav_titles output_folder) st entries.

(** [extract_text_from_epub(epub_path, output_base_folder)], on the book
    that [epub.read_epub(epub_path)] returns. *)
Definition extract_text_from_epub `{Unicode} `{MarkupParser} `{PathLib}
    (book : EpubBook) (output_base_folder : Path) : Outcome :=
  let output_folder := output_folder_of book output_base_folder in
  let st := {| file_counter := 1; non_chapter_content := [];
               effects := [Mkdir output_folder] |} in
  match extract_titles_from_nav book with
  | None => Raised (effects st)
  | Some nav_titles =>
      let st := run_spine book nav_titles output_folder st
                  (spine_after_first book) in
      Returned (finalize output_folder st)
  end.

(* ===================================================================== *)
(** ** Vocabulary of the specification *)
(* ===================================================================== *)

(** The fragments of a book: the items that the spine loop reaches and
    parses, in spine order (first spine entry skipped; unknown ids, items
    that are not documents and items without markup left out). *)
Definition fragment_of (book : EpubBook) (entry : str * str) : option EpubItem :=
  epub_item ← get_item_with_id book entry.1;
  if bool_decide (get_type epub_item = ITEM_DOCUMENT)
     && truthy (body_content_of epub_item)
  then Some epub_item else None.

Definition fragments (book : EpubBook) : list EpubItem :=
  omap (fragment_of book) (spine_after_first book).

(** The extracted, trimmed text of a fragment. *)
Definition fragment_text `{Unicode} `{MarkupParser} (epub_item : EpubItem) : str :=
  content_of (BeautifulSoup (body_content_of epub_item)).

(** The classifier: a fragment is a chapter or not. *)
Definition is_chapter `{Unicode} `{MarkupParser} (epub_item : EpubItem) : bool :=
  len (fragment_text epub_item) >? min_content_length.

Definition chapters `{Unicode} `{MarkupParser} (book : EpubBook) : list EpubItem :=
  List.filter is_chapter (fragments book).

Definition non_chapters `{Unicode} `{MarkupParser} (book : EpubBook) : list EpubItem :=
  List.filter (λ f, negb (is_chapter f)) (fragments book).

(** No element below [soup] satisfies the matcher. *)
Definition no_element (matches : PageElement → bool) (soup : PageElement) : Prop :=
  Forall (λ e, matches (node e) = false) (descendants soup).

(** [e] is the first element below [soup], in document order, that
    satisfies the test. *)
Definition first_element (test : Element → bool) (soup : PageElement)
    (e : Element) : Prop :=
  ∃ pre post, descendants soup = pre ++ e :: post
              ∧ Forall (λ y, test y = false) pre ∧ test e = true.

(** The tree has no element with a title class: no [p] of class [title],
    no [div] and no [span] of class [chapter-title]. *)
Definition no_title_class (soup : PageElement) : Prop :=
  no_element (named_with_class (u "p") (u "title")) soup
  ∧ no_element (named_with_class (u "div") (u "chapter-title")) soup
  ∧ no_element (named_with_class (u "span") (u "chapter-title")) soup.

(** An [em] element that [is_likely_title] accepts. *)
Definition qualifying_em `{Unicode} (e : Element) : bool :=
  named [u "em"] (node e) && is_likely_title e.

Definition no_qualifying_em `{Unicode} (soup : PageElement) : Prop :=
  Forall (λ e, qualifying_em e = false) (descendants soup).

(** The effect of emitting fragment [f] as the chapter numbered [k]. *)
Definition write_chapter `{Unicode} `{MarkupParser} `{PathLib}
    (nav_titles : gmap str str) (output_folder : Path) (k : Z)
    (f : EpubItem) : Effect :=
  WriteFile
    (chapter_file_name output_folder k
       (resolve_title nav_titles f (BeautifulSoup (body_content_of f))))
    (fragment_text f).

(** The chapter files for a list of chapter fragments, numbered from
    [first] upwards: [first], [first + 1], ... *)
Definition chapter_effects `{Unicode} `{MarkupParser} `{PathLib}
    (nav_titles : gmap str str) (output_folder : Path) (first : Z)
    (chapter_fragments : list EpubItem) : list Effect :=
  zip_with (write_chapter nav_titles output_folder)
    (seqZ first (len chapter_fragments)) chapter_fragments.

(** The directory creation followed by the chapter files of a book,
    numbered 1, 2, 3, ... *)
Definition chapter_log `{Unicode} `{MarkupParser} `{PathLib}
    (book : EpubBook) (nav_titles : gmap str str) (output_base_folder : Path)
  : list Effect :=
  let output_folder := output_folder_of book output_base_folder in
  Mkdir output_folder
  :: chapter_effects nav_titles output_folder 1 (chapters book).

(** The text of the non-chapter fragments of a list, each followed by a
    blank line, in order. *)
Definition aggregate_of `{Unicode} `{MarkupParser}
    (fragment_list : list EpubItem) : str :=
  concat ((λ f, fragment_text f ++ [10%N; 10%N])
            <$> List.filter (λ f, negb (is_chapter f)) fragment_list).

Definition aggregate_text `{Unicode} `{MarkupParser} (book : EpubBook) : str :=
  aggregate_of (fragments book).

Definition aggregate_file `{Unicode} `{PathLib} (book : EpubBook)
    (output_base_folder : Path) : Path :=
  path_div (output_folder_of book output_base_folder)
    (u "000_non_chapter_content.txt").

(* ===================================================================== *)
(** ** Implementations of the interfaces, for the examples *)
(* ===================================================================== *)

(** The ASCII rows of the Unicode tables: [isalnum] holds of digits and
    letters, [isspace] of TAB, LF, VT, FF, CR, FS, GS, RS, US and SPACE.
    The examples use ASCII text only. *)
Definition ascii_isalnum (c : char) : bool :=
  ((48 <=? c) && (c <=? 57) || (65 <=? c) && (c <=? 90)
   || (97 <=? c) && (c <=? 122))%N.

Definition ascii_isspace (c : char) : bool :=
  ((9 <=? c) && (c <=? 13) || (28 <=? c) && (c <=? 32))%N.

Definition ascii_table : Unicode :=
  {| isalnum := ascii_isalnum; isspace := ascii_isspace |}.

(** Relative POSIX paths without special segments: [p / name] appends
    ["/"] and the name. *)
Definition posix_paths : PathLib :=
  {| Path := str; path_div := λ p name, p ++ u "/" ++ name; path_str := λ p, p |}.

Definition posix (s : string) : @Path posix_paths := u s.

(** A parser given by its graph on the markup of an example; any other
    markup gives the empty document. *)
Definition document (contents : list PageElement) : PageElement :=
  Tag (u "[document]") ∅ contents.

Definition parser_of (graph : list (str * PageElement)) : MarkupParser :=
  {| BeautifulSoup := λ markup,
       default (document [])
         (snd <$> List.find (λ row, bool_decide (row.1 = markup)) graph) |}.

(* ===================================================================== *)
(** ** Data of the examples *)
(* ===================================================================== *)

Definition text (s : string) : PageElement := NavigableString (u s).

Definition elem (name : string) (contents : list PageElement) : PageElement :=
  Tag (u name) ∅ contents.

Definition elem_with (name attr value : string)
    (contents : list PageElement) : PageElement :=
  Tag (u name) {[ u attr := AttrStr (u value) ]} contents.

(** [<h2>Part One</h2><h1>Loomings</h1><p>Call me Ishmael.</p>] *)
Definition soup_h2_h1 : PageElement :=
  document [elem "h2" [text "Part One"]; elem "h1" [text "Loomings"];
            elem "p" [text "Call me Ishmael."]].

(** [<p>Call me Ishmael.</p>] *)
Definition soup_plain : PageElement :=
  document [elem "p" [text "Call me Ishmael."]].

(** [<p>See <em>ibid.</em></p><p><em>The Carpet-Bag</em> and
    <em>The Spouter-Inn</em></p>] *)
Definition soup_em : PageElement :=
  document [elem "p" [text "See "; elem "em" [text "ibid."]];
            elem "p" [elem "em" [text "The Carpet-Bag"]; text " and ";
                      elem "em" [text "The Spouter-Inn"]]].

Definition em_carpet_bag : Element :=
  {| node := elem "em" [text "The Carpet-Bag"];
     parent := elem "p" [elem "em" [text "The Carpet-Bag"]; text " and ";
                         elem "em" [text "The Spouter-Inn"]] |}.

Definition item_ch1 : EpubItem :=
  {| get_id := u "ch1"; get_name := u "Text/ch1.xhtml";
     get_type := ITEM_DOCUMENT; title := Some (u "Chapter");
     get_body_content := u "<p>Call me Ishmael.</p>";
     get_content := u "<html><body><p>Call me Ishmael.</p></body></html>" |}.

(** A table of contents with one entry, and its tree as ['html.parser']
    builds it, with every tag and attribute name in lower case. *)
Definition markup_toc : str :=
  u "<ncx><navMap><navPoint playOrder='1'><navLabel><text>Loomings</text></navLabel><content src='Text/ch1.xhtml#start'/></navPoint></navMap></ncx>".

Definition soup_toc : PageElement :=
  document
    [elem "ncx"
       [elem "navmap"
          [elem_with "navpoint" "playorder" "1"
             [elem "navlabel" [elem "text" [text "Loomings"]];
              elem_with "content" "src" "Text/ch1.xhtml#start" []]]]].

Definition item_toc : EpubItem :=
  {| get_id := u "ncx"; get_name := u "toc.ncx";
     get_type := ITEM_NAVIGATION; title := None;
     get_body_content := []; get_content := markup_toc |}.

(** A book whose table of contents lists its one chapter,
    [Text/ch1.xhtml], under the label ["Loomings"]. *)
Definition book_toc : EpubBook :=
  {| dc_title := [u "Moby-Dick; or, The Whale"];
     spine := [(u "nav", u "yes"); (u "ch1", u "yes")];
     items := [item_toc; item_ch1] |}.

Definition parser_toc : MarkupParser :=
  parser_of [(markup_toc, soup_toc);
             (u "<p>Call me Ishmael.</p>", soup_plain)].

(** A book of four fragments after the skipped first spine entry: a
    copyright notice of 40 characters, a text of exactly 100 characters,
    a chapter with a heading, and a text of 101 characters. The archive
    has no table of contents. *)
Definition soup_copyright : PageElement :=
  document [elem "p" [text "Copyright 1851 Harper and Brothers, N.Y."]].

Definition soup_loomings : PageElement :=
  document
    [elem "h1" [text "Chapter 1: Loomings"];
     elem "p" [text "Call me Ishmael. Some years ago, never mind how long precisely, having little or no money in my purse, I thought I would sail about a little."]].

Definition soup_x (n : nat) : PageElement :=
  document [elem "p" [NavigableString (replicate n 120%N)]].

Definition item_of (uid markup : str) : EpubItem :=
  {| get_id := uid; get_name := u "Text/" ++ uid ++ u ".xhtml";
     get_type := ITEM_DOCUMENT; title := None;
     get_body_content := markup; get_content := markup |}.

Definition item_copyright : EpubItem := item_of (u "copyright") (u "<p>(c)</p>").
Definition item_x100 : EpubItem := item_of (u "x100") (u "<p>x*100</p>").
Definition item_loomings : EpubItem := item_of (u "loomings") (u "<h1>..</h1>").
Definition item_x101 : EpubItem := item_of (u "x101") (u "<p>x*101</p>").

Definition book_moby : EpubBook :=
  {| dc_title := [u "Moby-Dick; or, The Whale"];
     spine := [(u "nav", u "yes"); (u "copyright", u "yes");
               (u "x100", u "yes"); (u "loomings", u "yes");
               (u "x101", u "yes")];
     items := [item_copyright; item_x100; item_loomings; item_x101] |}.

Definition parser_moby : MarkupParser :=
  parser_of [(u "<p>(c)</p>", soup_copyright); (u "<p>x*100</p>", soup_x 100);
             (u "<h1>..</h1>", soup_loomings); (u "<p>x*101</p>", soup_x 101)].

(* ===================================================================== *)
(** ** Vocabulary of the further properties *)
(* ===================================================================== *)


(** An upper-case ASCII letter. *)
Definition is_upper (c : char) : bool := ((65 <=? c) && (c <=? 90))%N.

(** No tag of the tree has an upper-case letter in its name. *)
Fixpoint lower_cased (e : PageElement) : bool :=
  match e with
  | NavigableString _ => true
  | Tag n _ cs => forallb (λ c, negb (is_upper c)) n && forallb lower_cased cs
  end.



(** The effects of a call, however it ends. *)
Definition log_of `{PathLib} (outcome : Outcome) : list Effect :=
  match outcome with
  | Returned log => log
  | Raised log => log
  end.

(** A string that neither begins nor ends with white space. *)
Definition trimmed `{Unicode} (s : str) : Prop :=
  (∀ c, head s = Some c → isspace c = false)
  ∧ (∀ c, last s = Some c → isspace c = false).

(** The book with another reading order. *)
Definition with_spine (book : EpubBook) (entries : list (str * str)) : EpubBook :=
  {| dc_title := dc_title book; spine := entries; items := items book |}.


(** Reading a number back from the decimal digits at the start of a
    string, up to the first character that is not a digit. *)
Fixpoint chars_uint (s : str) : Decimal.uint :=
  match s with
  | [] => Nil
  | c :: s' =>
      match c with
      | 48%N => D0 (chars_uint s')
      | 49%N => D1 (chars_uint s')
      | 50%N => D2 (chars_uint s')
      | 51%N => D3 (chars_uint s')
      | 52%N => D4 (chars_uint s')
      | 53%N => D5 (chars_uint s')
      | 54%N => D6 (chars_uint s')
      | 55%N => D7 (chars_uint s')
      | 56%N => D8 (chars_uint s')
      | 57%N => D9 (chars_uint s')
      | _ => Nil
      end
  end.

Definition leading_number (s : str) : Z := Z.of_N (N.of_uint (chars_uint s)).

(** The name of the chapter file inside the book's directory, as lines
    89-97 choose it. *)
Definition chapter_name `{Unicode} `{PathLib} (output_folder : Path)
    (file_counter : Z) (title : str) : str :=
  let name :=
    format_03 file_counter ++ u "_" ++ sanitize_filename title 100
    ++ u ".txt" in
  if len (path_str (path_div output_folder name)) >? 255 then
    format_03 file_counter ++ u "_"
    ++ sanitize_filename title
         (100 - (len (format_03 file_counter ++ u "_") + len (u ".txt")))
    ++ u ".txt"
  else name.

(* ===================================================================== *)
(** ** Batch driver *)
(* ===================================================================== *)

(** What a batch does, in order: an effect on the file system, or a line
    printed. *)
Inductive BatchEvent `{PathLib} :=
| Fs (e : Effect)
| Print (line : str).

Inductive BatchOutcome `{PathLib} :=
| BatchReturned (events : list BatchEvent)
| BatchRaised (events : list BatchEvent).

(** The loop of [process_all_epubs] over the files that
    [input_folder.glob('*.epub')] yields. A file is given by its name and
    by what [epub.read_epub] makes of it: a book, or [None] when it
    raises. *)
Fixpoint process_epub_files `{Unicode} `{MarkupParser} `{PathLib}
    (files : list (str * option EpubBook)) (output_folder : Path)
    (events : list BatchEvent) : BatchOutcome :=
  match files with
  | [] => BatchReturned events
  | epub_file :: rest =>
      let events :=
        events ++ [Print (u "Processing '" ++ epub_file.1 ++ u "'...")] in
      match epub_file.2 with
      | None => BatchRaised events
      | Some book =>
          match extract_text_from_epub book output_folder with
          | Returned log =>
              process_epub_files rest output_folder (events ++ (Fs <$> log))
          | Raised log => BatchRaised (events ++ (Fs <$> log))
          end
      end
  end.

(** [process_all_epubs(input_folder, output_folder)] *)
Definition process_all_epubs `{Unicode} `{MarkupParser} `{PathLib}
    (files : list (str * option EpubBook)) (output_folder : Path)
  : BatchOutcome :=
  match process_epub_files files output_folder [Fs (Mkdir output_folder)] with
  | BatchReturned events =>
      BatchReturned (events ++ [Print (u "Processing complete.")])
  | BatchRaised events => BatchRaised events
  end.

(** A file that is read and whose run returns. *)
Definition file_succeeds `{Unicode} `{MarkupParser} `{PathLib}
    (output_folder : Path) (epub_file : str * option EpubBook) : Prop :=
  ∃ book log, epub_file.2 = Some book
              ∧ extract_text_from_epub book output_folder = Returned log.

(** The events of one file: the line announcing it, then the effects of
    its run, if it could be read. *)
Definition file_events `{Unicode} `{MarkupParser} `{PathLib}
    (output_folder : Path) (epub_file : str * option EpubBook)
  : list BatchEvent :=
  Print (u "Processing '" ++ epub_file.1 ++ u "'...")
  :: match epub_file.2 with
     | Some book => Fs <$> log_of (extract_text_from_epub book output_folder)
     | None => []
     end.



(** An element with a [class] attribute, and a tree in which a [div] of
    class [chapter-title] and an accepted [em] come before a [p] of class
    [title]. *)
Definition elem_class (name cls : string)
    (contents : list PageElement) : PageElement :=
  Tag (u name) {[ u "class" := AttrList [u cls] ]} contents.

Definition soup_classes : PageElement :=
  document [elem_class "div" "chapter-title" [text "The Spouter-Inn"];
            elem "div" [elem "em" [text "The Carpet-Bag"]];
            elem_class "p" "title" [text "Loomings"]].

(* ===================================================================== *)
(** ** Properties of the string operations *)
(* ===================================================================== *)

Section Strings.
Context `{Unicode}.

Lemma lstrip_with_suffix p s : lstrip_with p s `suffix_of` s.
Proof.
  induction s as [|c s IH]; simpl; [done|].
  destruct (p c); [|done]. by apply suffix_cons_r.
Qed.

Lemma rstrip_with_prefix p s : rstrip_with p s `prefix_of` s.
Proof.
  unfold rstrip_with.
  destruct (lstrip_with_suffix p (reverse s)) as [k Hk].
  exists (reverse k).
  apply (f_equal reverse) in Hk.
  by rewrite reverse_involutive, reverse_app in Hk.
Qed.

Lemma rstrip_with_length p s : (length (rstrip_with p s) ≤ length s)%nat.
Proof. apply prefix_length, rstrip_with_prefix. Qed.

Lemma rstrip_with_Forall (P : char → Prop) p s :
  Forall P s → Forall P (rstrip_with p s).
Proof.
  intros Hs. destruct (rstrip_with_prefix p s) as [k Hk].
  rewrite Hk in Hs. by apply Forall_app in Hs as [? _].
Qed.

Lemma slice_to_length s n : 0 ≤ n → len (slice_to s n) ≤ n.
Proof.
  intros Hn. unfold slice_to, len.
  destruct (Z.leb_spec 0 n); [|lia]. rewrite length_take. lia.
Qed.

Lemma slice_to_Forall (P : char → Prop) s n :
  Forall P s → Forall P (slice_to s n).
Proof. unfold slice_to. destruct (0 <=? n); apply Forall_take. Qed.

Lemma safe_title_Forall title :
  Forall (λ c, isalnum c = true ∨ c = underscore)
    ((λ c, if isalnum c then c else underscore) <$> title).
Proof.
  apply Forall_fmap, Forall_forall. intros c _. simpl.
  destruct (isalnum c) eqn:E; auto.
Qed.

Lemma safe_title_symbols title :
  Forall (λ c, isalnum c = false) title →
  (λ c, if isalnum c then c else underscore) <$> title
  = replicate (length title) underscore.
Proof.
  induction 1 as [|c title Hc _ IH]; [done|].
  by rewrite fmap_cons, IH, Hc.
Qed.

End Strings.

(* ===================================================================== *)
(** ** Filename sanitizer: theorems *)
(* ===================================================================== *)

(** C1 (as the code has it): a title of only non-alphanumeric characters,
    with a maximum length that the title does not exceed, is returned as
    one underscore per character; nothing is stripped, because trailing
    underscores are removed only after a truncation. *)
Theorem sanitize_symbols_within_limit `{Unicode} (title : str) (max_length : Z) :
  Forall (λ c, isalnum c = false) title →
  len title ≤ max_length →
  sanitize_filename title max_length = replicate (length title) underscore.
Proof.
  intros Hsym Hlen. unfold sanitize_filename.
  rewrite safe_title_symbols by done.
  unfold len in *. rewrite length_replicate.
  destruct (Z.gtb_spec (Z.of_nat (length title)) max_length); [lia|done].
Qed.

Lemma sanitize_symbols_within_limit_witness :
  sanitize_filename (H := ascii_table) (u "***") 100 = u "___".
Proof.
  apply (sanitize_symbols_within_limit (H := ascii_table) (u "***") 100).
  - repeat constructor.
  - vm_compute. discriminate.
Defined.

(** C1, counterexample: ["***"] has only non-alphanumeric characters and
    fits the default maximum length of 100, and it is sanitized to
    ["___"], not to the empty string. *)
Lemma sanitize_symbols_not_empty :
  Forall (λ c, isalnum (Unicode := ascii_table) c = false) (u "***")
  ∧ len (u "***") ≤ 100
  ∧ sanitize_filename (H := ascii_table) (u "***") 100 = u "___"
  ∧ sanitize_filename (H := ascii_table) (u "***") 100 ≠ [].
Proof.
  split; [repeat constructor|].
  split; [vm_compute; discriminate|].
  split; [reflexivity|discriminate].
Qed.

(** C8: for every title and every maximum length [n] (a length: [0 ≤ n]),
    [sanitize_filename title n] is at most [n] characters long, and all
    its characters are alphanumeric or underscores (the latter for every
    integer [n]). *)
Theorem sanitize_bounded_and_safe `{Unicode} (title : str) (n : Z) :
  (0 ≤ n → len (sanitize_filename title n) ≤ n)
  ∧ Forall (λ c, isalnum c = true ∨ c = underscore) (sanitize_filename title n).
Proof.
  unfold sanitize_filename.
  set (safe_title := (λ c, if isalnum c then c else underscore) <$> title).
  pose proof (safe_title_Forall title) as Hsafe. fold safe_title in Hsafe.
  destruct (Z.gtb_spec (len safe_title) n) as [Hgt|Hle].
  - split.
    + intros Hn. pose proof (slice_to_length safe_title n Hn) as Hs.
      pose proof (rstrip_with_length
                    (λ c, bool_decide (c ∈ u "_")) (slice_to safe_title n)).
      unfold rstrip, len in *. lia.
    + by apply rstrip_with_Forall, slice_to_Forall.
  - split; [intros _; lia|done].
Qed.

Lemma sanitize_bounded_and_safe_witness :
  len (sanitize_filename (H := ascii_table) (u "Moby-Dick; or, The Whale") 9) ≤ 9
  ∧ sanitize_filename (H := ascii_table) (u "Moby-Dick; or, The Whale") 9
    = u "Moby_Dick".
Proof.
  split.
  - apply (sanitize_bounded_and_safe (H := ascii_table)
             (u "Moby-Dick; or, The Whale") 9). lia.
  - reflexivity.
Defined.

(* ===================================================================== *)
(** ** Properties of the tree queries *)
(* ===================================================================== *)

(** Induction on trees, with the hypothesis for every child of a tag. *)
Lemma PageElement_tree_ind (P : PageElement → Prop) :
  (∀ s, P (NavigableString s)) →
  (∀ n a cs, Forall P cs → P (Tag n a cs)) →
  ∀ e, P e.
Proof.
  intros Hstr Htag. fix IH 1. intros [s|n a cs]; [apply Hstr|].
  apply Htag. induction cs as [|c cs IHcs]; constructor; [apply IH|exact IHcs].
Qed.


(** Every element below a root has a tag for parent and is one of the
    children of that tag. *)
Lemma descendants_parent root e :
  e ∈ descendants root →
  ∃ n a cs, parent e = Tag n a cs ∧ node e ∈ cs.
Proof.
  revert e. induction root as [s|n a cs IH] using PageElement_tree_ind;
    intros e He; simpl in He; [by apply elem_of_nil in He|].
  apply list_elem_of_In, in_flat_map in He as (c & Hc & He).
  apply list_elem_of_In in Hc, He.
  apply elem_of_cons in He as [->|He].
  - exists n, a, cs. done.
  - rewrite Forall_forall in IH. eauto.
Qed.

(** [List.find] returns the first element that satisfies the test. *)
Lemma find_first {A} (f : A → bool) pre x post :
  Forall (λ y, f y = false) pre → f x = true →
  List.find f (pre ++ x :: post) = Some x.
Proof.
  intros Hpre Hx. induction Hpre as [|y pre Hy _ IH]; simpl.
  - by rewrite Hx.
  - by rewrite Hy.
Qed.

Lemma find_none {A} (f : A → bool) l :
  Forall (λ y, f y = false) l → List.find f l = None.
Proof. induction 1 as [|y l Hy _ IH]; simpl; [done|]. by rewrite Hy. Qed.

Lemma head_filter {A} (f : A → bool) l : head (List.filter f l) = List.find f l.
Proof. induction l as [|y l IH]; simpl; [done|]. by destruct (f y). Qed.

Lemma find_filter {A} (f g : A → bool) l :
  List.find g (List.filter f l) = List.find (λ y, f y && g y) l.
Proof.
  induction l as [|y l IH]; simpl; [done|].
  destruct (f y); simpl; [|done]. by destruct (g y).
Qed.

Lemma find_first_element matches soup e :
  first_element (λ y, matches (node y)) soup e → find matches soup = Some e.
Proof.
  intros (pre & post & Hd & Hpre & He). unfold find, find_all.
  rewrite head_filter, Hd. by apply find_first.
Qed.

Lemma find_no_element matches soup :
  no_element matches soup → find matches soup = None.
Proof.
  intros Hno. unfold find, find_all. rewrite head_filter. by apply find_none.
Qed.

Section Cascade.
Context `{Unicode}.

Lemma find_chapter_title_heading soup h :
  find (named headings) soup = Some h → find_chapter_title soup = Some h.
Proof. intros Hh. unfold find_chapter_title. by rewrite Hh. Qed.

Lemma find_chapter_title_em soup :
  no_element (named headings) soup → no_title_class soup →
  find_chapter_title soup = List.find qualifying_em (descendants soup).
Proof.
  intros Hh (Hp & Hd & Hs). unfold find_chapter_title.
  rewrite !find_no_element by done. simpl.
  unfold find_all. by rewrite find_filter.
Qed.

Lemma find_chapter_title_none soup :
  no_element (named headings) soup → no_title_class soup →
  no_qualifying_em soup → find_chapter_title soup = None.
Proof.
  intros Hh Hc Hem. rewrite find_chapter_title_em by done.
  by apply find_none.
Qed.

Lemma resolve_title_element nav_titles epub_item soup e :
  find_chapter_title soup = Some e →
  resolve_title nav_titles epub_item soup = get_text [] true (node e).
Proof. intros He. unfold resolve_title. by rewrite He. Qed.

End Cascade.

Lemma find_Some_first {A} (f : A → bool) l x :
  List.find f l = Some x →
  ∃ pre post, l = pre ++ x :: post ∧ Forall (λ y, f y = false) pre ∧ f x = true.
Proof.
  induction l as [|y l IH]; simpl; [discriminate|].
  destruct (f y) eqn:Hy.
  - intros [= ->]. by exists [], l.
  - intros (pre & post & -> & Hpre & Hx)%IH.
    exists (y :: pre), post. split; [done|]. split; [by constructor|done].
Qed.

Lemma find_exists {A} (f : A → bool) l x :
  x ∈ l → f x = true → ∃ y, List.find f l = Some y.
Proof.
  induction 1 as [x l|x y l _ IH]; simpl; intros Hx.
  - rewrite Hx. eauto.
  - destruct (f y); eauto.
Qed.

Lemma first_element_find test soup e :
  List.find test (descendants soup) = Some e → first_element test soup e.
Proof. apply find_Some_first. Qed.

Lemma no_element_forallb matches soup :
  forallb (λ e, negb (matches (node e))) (descendants soup) = true →
  no_element matches soup.
Proof.
  unfold no_element. rewrite forallb_forall, Forall_forall.
  intros Hall e He%list_elem_of_In. apply negb_true_iff; auto.
Qed.

Lemma no_qualifying_em_forallb `{Unicode} soup :
  forallb (λ e, negb (qualifying_em e)) (descendants soup) = true →
  no_qualifying_em soup.
Proof.
  unfold no_qualifying_em. rewrite forallb_forall, Forall_forall.
  intros Hall e He%list_elem_of_In. apply negb_true_iff; auto.
Qed.

(* ===================================================================== *)
(** ** Title resolution: theorems *)
(* ===================================================================== *)

(** C3: title resolution precedence. (1) When the tree has a heading
    ([h1]-[h4]), the resolved title is the text of a heading of the tree,
    whatever the navigation index holds for the fragment. (2) When the tree
    has no heading, no title-class element and no qualifying emphasis
    element, a label found in the navigation index under the fragment's
    file name is the title, not the intrinsic title. (3) With none of
    these, the title is the intrinsic title when the item has one (a
    non-empty string), else ["Untitled"]. *)
Theorem title_precedence `{Unicode} (nav_titles : gmap str str)
    (epub_item : EpubItem) (soup : PageElement) :
  (∀ e, e ∈ descendants soup → named headings (node e) = true →
        ∃ h, first_element (λ e, named headings (node e)) soup h
             ∧ resolve_title nav_titles epub_item soup
               = get_text [] true (node h))
  ∧ (no_element (named headings) soup → no_title_class soup →
     no_qualifying_em soup →
     (∀ label, nav_titles !! lookup_key epub_item = Some label →
               resolve_title nav_titles epub_item soup = label)
     ∧ (nav_titles !! lookup_key epub_item = None →
        resolve_title nav_titles epub_item soup
        = match title epub_item with
          | Some (c :: t) => c :: t
          | Some [] | None => u "Untitled"
          end)).
Proof.
  split.
  - intros e He Hname.
    destruct (find_exists (λ e, named headings (node e)) _ e He Hname)
      as [h Hh%first_element_find].
    exists h. split; [done|].
    apply resolve_title_element, find_chapter_title_heading.
    by apply find_first_element.
  - intros Hh Hc Hem. unfold resolve_title.
    rewrite find_chapter_title_none by done. split.
    + intros label Hlabel. rewrite Hlabel. simpl.
      case_bool_decide as Hne; [done|].
      rewrite Hne, lookup_empty in Hlabel. done.
    + intros Hmiss. rewrite Hmiss. simpl.
      assert (intrinsic_title epub_item
              = match title epub_item with
                | Some (c :: t) => c :: t
                | Some [] | None => u "Untitled"
                end) as ->; [|by case_bool_decide].
      unfold intrinsic_title. by destruct (title epub_item) as [[|??]|].
Qed.

Lemma title_precedence_witness :
  resolve_title (H := ascii_table) {[ u "ch1.xhtml" := u "Loomings" ]}
    item_ch1 soup_plain = u "Loomings"
  ∧ resolve_title (H := ascii_table) ∅ item_ch1 soup_plain = u "Chapter"
  ∧ resolve_title (H := ascii_table) {[ u "ch1.xhtml" := u "Loomings" ]}
      item_ch1 soup_h2_h1 = u "Part One".
Proof.
  assert (no_element (named headings) soup_plain) as Hh
    by (apply no_element_forallb; reflexivity).
  assert (no_title_class soup_plain) as Hc
    by (repeat split; apply no_element_forallb; reflexivity).
  assert (no_qualifying_em (H := ascii_table) soup_plain) as Hem
    by (apply no_qualifying_em_forallb; reflexivity).
  split; [|split].
  - apply (title_precedence (H := ascii_table)
             {[ u "ch1.xhtml" := u "Loomings" ]} item_ch1 soup_plain);
      [done..|reflexivity].
  - apply (title_precedence (H := ascii_table) ∅ item_ch1 soup_plain);
      [done..|reflexivity].
  - destruct (proj1 (title_precedence (H := ascii_table)
                       {[ u "ch1.xhtml" := u "Loomings" ]} item_ch1 soup_h2_h1)
                {| node := elem "h1" [text "Loomings"]; parent := soup_h2_h1 |})
      as (h & _ & Hres); [|reflexivity|].
    + apply list_elem_of_In. vm_compute. tauto.
    + reflexivity.
Defined.

(** C4 (as the code has it): the heading that gives the title is the first
    element named [h1], [h2], [h3] or [h4] in document order, whatever its
    level: its text is the resolved title for every navigation index and
    item. *)
Theorem heading_first_in_document_order `{Unicode} (nav_titles : gmap str str)
    (epub_item : EpubItem) (soup : PageElement) (h : Element) :
  first_element (λ e, named headings (node e)) soup h →
  resolve_title nav_titles epub_item soup = get_text [] true (node h).
Proof.
  intros Hh. apply resolve_title_element, find_chapter_title_heading.
  by apply find_first_element.
Qed.

Lemma heading_first_in_document_order_witness :
  resolve_title (H := ascii_table) ∅ item_ch1 soup_h2_h1 = u "Part One".
Proof.
  apply (heading_first_in_document_order (H := ascii_table) ∅ item_ch1
           soup_h2_h1
           {| node := elem "h2" [text "Part One"]; parent := soup_h2_h1 |}).
  apply first_element_find. reflexivity.
Defined.

(** C4, counterexample: in [<h2>Part One</h2><h1>Loomings</h1>...] the
    tree holds an [h1] after an [h2]; the resolved title is the text of the
    [h2], not the text of the more significant [h1]. *)
Lemma heading_significance_ignored :
  {| node := elem "h1" [text "Loomings"]; parent := soup_h2_h1 |}
    ∈ descendants soup_h2_h1
  ∧ resolve_title (H := ascii_table) ∅ item_ch1 soup_h2_h1 = u "Part One"
  ∧ resolve_title (H := ascii_table) ∅ item_ch1 soup_h2_h1
    ≠ get_text (H := ascii_table) [] true (elem "h1" [text "Loomings"]).
Proof.
  split; [apply list_elem_of_In; vm_compute; tauto|].
  split; [reflexivity|]. vm_compute. discriminate.
Qed.




(* ===================================================================== *)
(** ** Navigation title index: theorems *)
(* ===================================================================== *)

(** C2, the code at the failing input: the table of contents lists
    [Text/ch1.xhtml] under ["Loomings"], but the tree that the parser
    builds has its tag names in lower case, [find_all('navPoint')] finds
    nothing in it and the index is empty: no key is stored for the entry,
    the driver's lookup under ["ch1.xhtml"] is not even made, and the item
    keeps its intrinsic title. *)
Theorem nav_index_misses_entry :
  BeautifulSoup (MarkupParser := parser_toc) (get_content item_toc) = soup_toc
  ∧ lower_cased soup_toc = true
  ∧ find_all (named [u "navPoint"]) soup_toc = []
  ∧ extract_titles_from_nav (H := ascii_table) (H0 := parser_toc) book_toc
    = Some ∅
  ∧ lookup_key item_ch1 = u "ch1.xhtml"
  ∧ resolve_title (H := ascii_table) ∅ item_ch1 soup_plain = u "Chapter".
Proof. repeat split; reflexivity. Qed.

(* ===================================================================== *)
(** ** Properties of the segmentation driver *)
(* ===================================================================== *)

Section Driver.
Context `{Unicode} `{MarkupParser} `{PathLib}.
Variables (book : EpubBook) (nav_titles : gmap str str) (output_folder : Path).

Lemma chapter_effects_nil first :
  chapter_effects nav_titles output_folder first [] = [].
Proof. reflexivity. Qed.

Lemma chapter_effects_cons first f fs :
  chapter_effects nav_titles output_folder first (f :: fs)
  = write_chapter nav_titles output_folder first f
    :: chapter_effects nav_titles output_folder (first + 1) fs.
Proof.
  unfold chapter_effects, len. rewrite seqZ_cons by (simpl; lia).
  simpl zip_with. do 3 f_equal; simpl length; lia.
Qed.

Lemma aggregate_of_nil : aggregate_of [] = [].
Proof. reflexivity. Qed.

Lemma aggregate_of_chapter f fs :
  is_chapter f = true → aggregate_of (f :: fs) = aggregate_of fs.
Proof. intros Hc. unfold aggregate_of. cbn [List.filter]. by rewrite Hc. Qed.

Lemma aggregate_of_non_chapter f fs :
  is_chapter f = false →
  aggregate_of (f :: fs) = fragment_text f ++ [10%N; 10%N] ++ aggregate_of fs.
Proof.
  intros Hc. unfold aggregate_of. cbn [List.filter]. rewrite Hc. cbn [negb].
  rewrite fmap_cons. cbn [concat]. by rewrite <- app_assoc.
Qed.

Lemma chapter_effects_length first fs :
  length (chapter_effects nav_titles output_folder first fs) = length fs.
Proof.
  revert first. induction fs as [|f fs IH]; intros first; [done|].
  rewrite chapter_effects_cons. cbn [length]. by rewrite IH.
Qed.

Lemma chapter_effects_lookup first fs (i : nat) f :
  fs !! i = Some f →
  chapter_effects nav_titles output_folder first fs !! i
  = Some (write_chapter nav_titles output_folder (first + Z.of_nat i) f).
Proof.
  revert first i. induction fs as [|f' fs IH]; intros first i; [done|].
  rewrite chapter_effects_cons. destruct i as [|i]; cbn [lookup list_lookup].
  - intros [= ->]. do 2 f_equal. lia.
  - intros Hf. rewrite (IH _ _ Hf). do 2 f_equal. lia.
Qed.

Lemma process_item_skip st entry :
  fragment_of book entry = None →
  process_item book nav_titles output_folder st entry = st.
Proof.
  unfold fragment_of, process_item.
  destruct (get_item_with_id book entry.1) as [epub_item|]; [|done].
  cbn. case_bool_decide; [|done].
  by destruct (truthy (body_content_of epub_item)).
Qed.

Lemma fragment_of_Some entry f :
  fragment_of book entry = Some f →
  get_item_with_id book entry.1 = Some f
  ∧ get_type f = ITEM_DOCUMENT ∧ truthy (body_content_of f) = true.
Proof.
  unfold fragment_of.
  destruct (get_item_with_id book entry.1) as [epub_item|]; [|done].
  cbn. case_bool_decide; [|done].
  destruct (truthy (body_content_of epub_item)) eqn:Hbody; [|done].
  by intros [= <-].
Qed.

Lemma process_item_chapter st entry f :
  fragment_of book entry = Some f → is_chapter f = true →
  process_item book nav_titles output_folder st entry
  = {| file_counter := file_counter st + 1;
       non_chapter_content := non_chapter_content st;
       effects := effects st
                  ++ [write_chapter nav_titles output_folder
                        (file_counter st) f] |}.
Proof.
  intros (Hitem & Htype & Hbody)%fragment_of_Some Hchapter.
  unfold process_item. rewrite Hitem, Hbody.
  rewrite bool_decide_eq_true_2 by done.
  unfold is_chapter, fragment_text in Hchapter. by rewrite Hchapter.
Qed.

Lemma process_item_non_chapter st entry f :
  fragment_of book entry = Some f → is_chapter f = false →
  process_item book nav_titles output_folder st entry
  = {| file_counter := file_counter st;
       non_chapter_content :=
         non_chapter_content st ++ fragment_text f ++ [10%N; 10%N];
       effects := effects st |}.
Proof.
  intros (Hitem & Htype & Hbody)%fragment_of_Some Hchapter.
  unfold process_item. rewrite Hitem, Hbody.
  rewrite bool_decide_eq_true_2 by done.
  unfold is_chapter, fragment_text in Hchapter. by rewrite Hchapter.
Qed.

(** The state after the loop, from any state: the counter has advanced
    by the number of chapters, each chapter was written with the next
    number, and the other fragments were appended to the buffer. *)
Lemma run_spine_spec entries st :
  let fragment_list := omap (fragment_of book) entries in
  run_spine book nav_titles output_folder st entries
  = {| file_counter :=
         file_counter st + len (List.filter is_chapter fragment_list);
       non_chapter_content :=
         non_chapter_content st ++ aggregate_of fragment_list;
       effects :=
         effects st
         ++ chapter_effects nav_titles output_folder (file_counter st)
              (List.filter is_chapter fragment_list) |}.
Proof.
  revert st. induction entries as [|entry entries IH]; intros st; cbn zeta.
  - destruct st as [counter buffer log]. unfold run_spine.
    cbn [foldl omap list_omap List.filter file_counter non_chapter_content
         effects].
    rewrite aggregate_of_nil, chapter_effects_nil, !app_nil_r.
    f_equal. unfold len. cbn [length]. lia.
  - unfold run_spine in *. cbn [foldl]. rewrite IH. cbn [omap list_omap].
    destruct (fragment_of book entry) as [f|] eqn:Hf.
    + cbn [List.filter]. destruct (is_chapter f) eqn:Hc.
      * rewrite (process_item_chapter _ _ f) by done.
        cbn [file_counter non_chapter_content effects].
        rewrite chapter_effects_cons, aggregate_of_chapter, <- app_assoc
          by done.
        f_equal. unfold len. cbn [length]. lia.
      * rewrite (process_item_non_chapter _ _ f) by done.
        cbn [file_counter non_chapter_content effects].
        rewrite aggregate_of_non_chapter by done.
        by rewrite <- !app_assoc.
    + by rewrite process_item_skip.
Qed.

End Driver.

Section Run.
Context `{Unicode} `{MarkupParser} `{PathLib}.

(** A run whose navigation index builds returns, after the chapter
    files, the aggregate file exactly when the buffer has text. *)
Lemma extract_returns book output_base_folder nav_titles :
  extract_titles_from_nav book = Some nav_titles →
  extract_text_from_epub book output_base_folder
  = Returned
      (chapter_log book nav_titles output_base_folder
       ++ if truthy (strip (aggregate_text book))
          then [WriteFile (aggregate_file book output_base_folder)
                  (aggregate_text book)]
          else []).
Proof.
  intros Hnav. unfold extract_text_from_epub. rewrite Hnav.
  cbn zeta. rewrite run_spine_spec. unfold finalize.
  cbn [file_counter non_chapter_content effects app].
  unfold chapter_log, aggregate_file, aggregate_text, chapters, fragments.
  destruct (truthy _).
  - done.
  - by rewrite app_nil_r.
Qed.

Lemma aggregate_of_nil_inv (fragment_list : list EpubItem) :
  List.filter (λ f, negb (is_chapter f)) fragment_list = [] →
  aggregate_of fragment_list = [].
Proof. unfold aggregate_of. by intros ->. Qed.

End Run.

Lemma truthy_true (s : str) : truthy s = true ↔ s ≠ [].
Proof. by destruct s. Qed.

Lemma app_singleton_neq {A} (l : list A) x : l ++ [x] ≠ l.
Proof.
  intros Heq. apply (f_equal length) in Heq.
  rewrite length_app in Heq. cbn in Heq. lia.
Qed.

(* ===================================================================== *)
(** ** Segmentation driver: theorems *)
(* ===================================================================== *)

(** C5: the classifier boundary. A fragment is a chapter exactly when its
    trimmed text is longer than 100 characters. With exactly 100
    characters the loop appends the text and a blank line to the aggregate
    buffer, writes nothing and keeps the counter; with 101 or more it
    writes the chapter file and advances the counter. *)
Theorem classifier_boundary `{Unicode} `{MarkupParser} `{PathLib}
    (book : EpubBook) (nav_titles : gmap str str) (output_folder : Path)
    (st : DriverState) (entry : str * str) (f : EpubItem) :
  fragment_of book entry = Some f →
  (is_chapter f = true ↔ 100 < len (fragment_text f))
  ∧ (len (fragment_text f) = 100 →
     process_item book nav_titles output_folder st entry
     = {| file_counter := file_counter st;
          non_chapter_content :=
            non_chapter_content st ++ fragment_text f ++ [10%N; 10%N];
          effects := effects st |})
  ∧ (101 ≤ len (fragment_text f) →
     process_item book nav_titles output_folder st entry
     = {| file_counter := file_counter st + 1;
          non_chapter_content := non_chapter_content st;
          effects :=
            effects st
            ++ [WriteFile
                  (chapter_file_name output_folder (file_counter st)
                     (resolve_title nav_titles f
                        (BeautifulSoup (body_content_of f))))
                  (fragment_text f)] |}).
Proof.
  intros Hf.
  assert (is_chapter f = true ↔ 100 < len (fragment_text f)) as Hiff.
  { unfold is_chapter, min_content_length.
    destruct (Z.gtb_spec (len (fragment_text f)) 100); split; (done || lia). }
  split; [done|]. split.
  - intros Hlen. apply process_item_non_chapter; [done|].
    destruct (is_chapter f); [|done]. apply proj1 in Hiff. lia.
  - intros Hlen. apply process_item_chapter; [done|]. apply Hiff. lia.
Qed.

(** C6: within one book the chapter files are numbered 1, 2, 3, ... in the
    order in which they are written: the log of a run is the directory
    creation, then one file per chapter fragment in spine order, the
    [i]-th of them (counting from 0) written under the number [i + 1], then
    at most the aggregate file. A fragment that is not a chapter leaves
    the counter as it is. *)
Theorem chapter_numbers_consecutive `{Unicode} `{MarkupParser} `{PathLib}
    (book : EpubBook) (output_base_folder : Path) (nav_titles : gmap str str) :
  extract_titles_from_nav book = Some nav_titles →
  (∃ chapter_files aggregate,
     extract_text_from_epub book output_base_folder
     = Returned (Mkdir (output_folder_of book output_base_folder)
                 :: chapter_files ++ aggregate)
     ∧ length chapter_files = length (chapters book)
     ∧ (∀ (i : nat) f,
          chapters book !! i = Some f →
          chapter_files !! i
          = Some (WriteFile
                    (chapter_file_name
                       (output_folder_of book output_base_folder)
                       (Z.of_nat i + 1)
                       (resolve_title nav_titles f
                          (BeautifulSoup (body_content_of f))))
                    (fragment_text f)))
     ∧ (aggregate = []
        ∨ aggregate = [WriteFile (aggregate_file book output_base_folder)
                         (aggregate_text book)]))
  ∧ (∀ st entry f,
       fragment_of book entry = Some f → is_chapter f = false →
       file_counter
         (process_item book nav_titles
            (output_folder_of book output_base_folder) st entry)
       = file_counter st).
Proof.
  intros Hnav. split.
  - eexists _, _. split; [|split; [|split]].
    + rewrite (extract_returns _ _ _ Hnav). unfold chapter_log.
      rewrite <- app_comm_cons. reflexivity.
    + apply chapter_effects_length.
    + intros i f Hf. rewrite (chapter_effects_lookup _ _ _ _ _ _ Hf).
      unfold write_chapter. do 3 f_equal. lia.
    + destruct (truthy _); auto.
  - intros st entry f Hf Hc.
    by rewrite (process_item_non_chapter _ _ _ _ _ f).
Qed.

(** C7: the aggregate file is written if and only if some fragment of the
    book was classified as non-chapter and the accumulated text is not
    empty after stripping; otherwise the run ends with the chapter files. *)
Theorem aggregate_written_iff `{Unicode} `{MarkupParser} `{PathLib}
    (book : EpubBook) (output_base_folder : Path) (nav_titles : gmap str str) :
  extract_titles_from_nav book = Some nav_titles →
  (extract_text_from_epub book output_base_folder
   = Returned (chapter_log book nav_titles output_base_folder
               ++ [WriteFile (aggregate_file book output_base_folder)
                     (aggregate_text book)])
   ↔ non_chapters book ≠ [] ∧ strip (aggregate_text book) ≠ [])
  ∧ (extract_text_from_epub book output_base_folder
     = Returned (chapter_log book nav_titles output_base_folder)
     ↔ ¬ (non_chapters book ≠ [] ∧ strip (aggregate_text book) ≠ [])).
Proof.
  intros Hnav. rewrite (extract_returns _ _ _ Hnav).
  destruct (truthy (strip (aggregate_text book))) eqn:Htext.
  - apply truthy_true in Htext.
    assert (non_chapters book ≠ []) as Hsome.
    { intros Hnone. apply Htext. unfold aggregate_text.
      by rewrite aggregate_of_nil_inv. }
    split; split; [done|done| |tauto].
    intros [= Heq]. by apply app_singleton_neq in Heq.
  - assert (strip (aggregate_text book) = []) as Hempty
      by (by destruct (strip (aggregate_text book))).
    rewrite app_nil_r. split; split; [|tauto|tauto|done].
    intros [= Heq]. symmetry in Heq. by apply app_singleton_neq in Heq.
Qed.

(** C10: when the aggregate file is written, its content is the
    concatenation, in spine order, of the stripped text of every
    non-chapter fragment, each followed by ["\n\n"]; it is written when
    that text is not all white space, as accumulated: the separator after
    the last fragment is still there. *)
Theorem aggregate_content `{Unicode} `{MarkupParser} `{PathLib}
    (book : EpubBook) (output_base_folder : Path) (nav_titles : gmap str str) :
  extract_titles_from_nav book = Some nav_titles →
  let content :=
    concat ((λ f, fragment_text f ++ [10%N; 10%N]) <$> non_chapters book) in
  (∀ c, extract_text_from_epub book output_base_folder
        = Returned (chapter_log book nav_titles output_base_folder
                    ++ [WriteFile (aggregate_file book output_base_folder) c]) →
        c = content)
  ∧ (strip content ≠ [] →
     extract_text_from_epub book output_base_folder
     = Returned (chapter_log book nav_titles output_base_folder
                 ++ [WriteFile (aggregate_file book output_base_folder)
                       content]))
  ∧ (non_chapters book ≠ [] → [10%N; 10%N] `suffix_of` content).
Proof.
  intros Hnav content.
  assert (aggregate_text book = content) as Hcontent by reflexivity.
  rewrite (extract_returns _ _ _ Hnav), Hcontent. split; [|split].
  - intros c [= Heq%app_inv_head].
    destruct (truthy (strip content)); by simplify_eq.
  - intros Htext%truthy_true. by rewrite Htext.
  - clear Hcontent. subst content.
    induction (non_chapters book) as [|f fs IH]; [done|].
    intros _. rewrite fmap_cons. cbn [concat]. destruct fs as [|f' fs].
    + cbn [fmap list_fmap concat]. rewrite app_nil_r. by apply suffix_app_r.
    + apply suffix_app_r, IH. done.
Qed.

Section Examples.
#[local] Existing Instance ascii_table.
#[local] Existing Instance parser_moby.
#[local] Existing Instance posix_paths.

Lemma classifier_boundary_witness :
  is_chapter item_x100 = false ∧ is_chapter item_x101 = true
  ∧ process_item book_moby ∅ (posix "out")
      {| file_counter := 1; non_chapter_content := []; effects := [] |}
      (u "x100", u "yes")
    = {| file_counter := 1;
         non_chapter_content := replicate 100 120%N ++ [10%N; 10%N];
         effects := [] |}
  ∧ process_item book_moby ∅ (posix "out")
      {| file_counter := 1; non_chapter_content := []; effects := [] |}
      (u "x101", u "yes")
    = {| file_counter := 2;
         non_chapter_content := [];
         effects := [WriteFile (posix "out/001_Untitled.txt")
                       (replicate 101 120%N)] |}.
Proof.
  split; [reflexivity|]. split; [reflexivity|]. split.
  - etrans.
    + apply (proj1 (proj2 (classifier_boundary book_moby ∅ (posix "out")
               {| file_counter := 1; non_chapter_content := [];
                  effects := [] |}
               (u "x100", u "yes") item_x100 eq_refl))).
      reflexivity.
    + reflexivity.
  - etrans.
    + apply (proj2 (proj2 (classifier_boundary book_moby ∅ (posix "out")
               {| file_counter := 1; non_chapter_content := [];
                  effects := [] |}
               (u "x101", u "yes") item_x101 eq_refl))).
      vm_compute. discriminate.
    + reflexivity.
Defined.

(** The run on the example book: numbered chapter files, then the
    aggregate file with the two short fragments. *)
Example moby_dick_log :
  extract_titles_from_nav book_moby = Some ∅
  ∧ extract_text_from_epub book_moby (posix "out")
    = Returned
        [Mkdir (posix "out/Moby_Dick__or__The_Whale");
         WriteFile
           (posix "out/Moby_Dick__or__The_Whale/001_Chapter_1__Loomings.txt")
           (u "Chapter 1: Loomings Call me Ishmael. Some years ago, never mind how long precisely, having little or no money in my purse, I thought I would sail about a little.");
         WriteFile (posix "out/Moby_Dick__or__The_Whale/002_Untitled.txt")
           (replicate 101 120%N);
         WriteFile
           (posix "out/Moby_Dick__or__The_Whale/000_non_chapter_content.txt")
           (u "Copyright 1851 Harper and Brothers, N.Y." ++ [10%N; 10%N]
            ++ replicate 100 120%N ++ [10%N; 10%N])].
Proof. split; vm_compute; reflexivity. Qed.

Lemma chapter_numbers_consecutive_witness :
  ∃ chapter_files aggregate,
    extract_text_from_epub book_moby (posix "out")
    = Returned (Mkdir (output_folder_of book_moby (posix "out"))
                :: chapter_files ++ aggregate)
    ∧ length chapter_files = length (chapters book_moby)
    ∧ (∀ (i : nat) f,
         chapters book_moby !! i = Some f →
         chapter_files !! i
         = Some (WriteFile
                   (chapter_file_name
                      (output_folder_of book_moby (posix "out"))
                      (Z.of_nat i + 1)
                      (resolve_title ∅ f (BeautifulSoup (body_content_of f))))
                   (fragment_text f)))
    ∧ (aggregate = []
       ∨ aggregate = [WriteFile (aggregate_file book_moby (posix "out"))
                        (aggregate_text book_moby)]).
Proof.
  exact (proj1 (chapter_numbers_consecutive book_moby (posix "out") ∅ eq_refl)).
Defined.

Lemma aggregate_written_iff_witness :
  extract_text_from_epub book_moby (posix "out")
  = Returned (chapter_log book_moby ∅ (posix "out")
              ++ [WriteFile (aggregate_file book_moby (posix "out"))
                    (aggregate_text book_moby)]).
Proof.
  apply (proj1 (aggregate_written_iff book_moby (posix "out") ∅ eq_refl)).
  split; vm_compute; discriminate.
Defined.

Lemma aggregate_content_witness :
  extract_text_from_epub book_moby (posix "out")
  = Returned (chapter_log book_moby ∅ (posix "out")
              ++ [WriteFile (aggregate_file book_moby (posix "out"))
                    (concat ((λ f, fragment_text f ++ [10%N; 10%N])
                               <$> non_chapters book_moby))]).
Proof.
  apply (proj1 (proj2 (aggregate_content book_moby (posix "out") ∅ eq_refl))).
  vm_compute. discriminate.
Defined.

End Examples.

(* ===================================================================== *)
(** ** Further properties of the filename sanitizer *)
(* ===================================================================== *)

Lemma lstrip_with_head p s c :
  head (lstrip_with p s) = Some c → p c = false.
Proof.
  induction s as [|d s IH]; simpl; [done|].
  destruct (p d) eqn:Hd; [done|]. simpl. by intros [= <-].
Qed.

Lemma rstrip_with_last p s c :
  last (rstrip_with p s) = Some c → p c = false.
Proof. unfold rstrip_with. rewrite last_reverse. apply lstrip_with_head. Qed.

Lemma lstrip_with_id p s :
  (∀ c, head s = Some c → p c = false) → lstrip_with p s = s.
Proof. destruct s as [|c s]; simpl; [done|]. intros Hc. by rewrite Hc. Qed.

Lemma safe_title_fixed `{Unicode} (s : str) :
  Forall (λ c, isalnum c = true ∨ c = underscore) s →
  (λ c, if isalnum c then c else underscore) <$> s = s.
Proof.
  induction 1 as [|c s Hc _ IH]; [done|]. rewrite fmap_cons, IH. f_equal.
  destruct Hc as [->| ->]; [done|]. by destruct (isalnum underscore).
Qed.

Lemma sanitize_prefix `{Unicode} (title : str) (n : Z) :
  sanitize_filename title n
    `prefix_of` ((λ c, if isalnum c then c else underscore) <$> title).
Proof.
  unfold sanitize_filename. destruct (_ >? n); [|done].
  etrans; [apply rstrip_with_prefix|].
  unfold slice_to. destruct (0 <=? n); apply prefix_take.
Qed.

Lemma sanitize_safe_chars `{Unicode} (title : str) (n : Z) :
  Forall (λ c, isalnum c = true ∨ c = underscore) (sanitize_filename title n).
Proof.
  destruct (sanitize_prefix title n) as [k Hk].
  pose proof (safe_title_Forall title) as Hsafe.
  rewrite Hk in Hsafe. by apply Forall_app in Hsafe as [? _].
Qed.

Lemma sanitize_length_le `{Unicode} (title : str) (n : Z) :
  0 ≤ n → len (sanitize_filename title n) ≤ n.
Proof.
  intros Hn. unfold sanitize_filename.
  destruct (Z.gtb_spec (len ((λ c, if isalnum c then c else underscore)
                               <$> title)) n) as [Hgt|Hle]; [|done].
  pose proof (slice_to_length
                ((λ c, if isalnum c then c else underscore) <$> title) n Hn).
  pose proof (rstrip_with_length (λ c, bool_decide (c ∈ u "_"))
                (slice_to ((λ c, if isalnum c then c else underscore)
                             <$> title) n)).
  unfold rstrip, len in *. lia.
Qed.

(** X1: a title made of alphanumeric characters and underscores that is
    no longer than the maximum length is returned unchanged. *)
Theorem sanitize_safe_title_unchanged `{Unicode} (title : str) (n : Z) :
  Forall (λ c, isalnum c = true ∨ c = underscore) title →
  len title ≤ n →
  sanitize_filename title n = title.
Proof.
  intros Hsafe Hlen. unfold sanitize_filename.
  rewrite safe_title_fixed by done.
  destruct (Z.gtb_spec (len title) n); [lia|done].
Qed.

Lemma sanitize_safe_title_unchanged_witness :
  sanitize_filename (H := ascii_table) (u "Unknown_Book") 100 = u "Unknown_Book".
Proof.
  apply (sanitize_safe_title_unchanged (H := ascii_table) (u "Unknown_Book") 100).
  - repeat (constructor; [first [by left | by right]|]). constructor.
  - vm_compute. discriminate.
Defined.

(** X2: sanitizing is idempotent for a maximum length [0 ≤ n]: the result
    of a call is returned unchanged by a second call with the same bound. *)
Theorem sanitize_idempotent `{Unicode} (title : str) (n : Z) :
  0 ≤ n →
  sanitize_filename (sanitize_filename title n) n = sanitize_filename title n.
Proof.
  intros Hn. pose proof (sanitize_length_le title n Hn) as Hlen.
  pose proof (sanitize_safe_chars title n) as Hsafe.
  set (r := sanitize_filename title n) in *. unfold sanitize_filename.
  rewrite safe_title_fixed by done.
  destruct (Z.gtb_spec (len r) n); [lia|done].
Qed.

Lemma sanitize_idempotent_witness :
  sanitize_filename (H := ascii_table)
    (sanitize_filename (H := ascii_table) (u "Moby-Dick; or, The Whale") 10) 10
  = u "Moby_Dick".
Proof.
  etrans.
  - apply (sanitize_idempotent (H := ascii_table)
             (u "Moby-Dick; or, The Whale") 10). lia.
  - reflexivity.
Defined.

(** X3: a title longer than the maximum length is cut: the result is a
    prefix of the title with every non-alphanumeric character replaced by
    an underscore, and it never ends with an underscore. *)
Theorem sanitize_truncated_no_trailing_underscore `{Unicode}
    (title : str) (n : Z) :
  n < len title →
  sanitize_filename title n
    `prefix_of` ((λ c, if isalnum c then c else underscore) <$> title)
  ∧ last (sanitize_filename title n) ≠ Some underscore.
Proof.
  intros Hlong. split; [apply sanitize_prefix|].
  unfold sanitize_filename.
  destruct (Z.gtb_spec (len ((λ c, if isalnum c then c else underscore)
                               <$> title)) n) as [Hgt|Hle].
  - intros Hlast%rstrip_with_last. apply bool_decide_eq_false in Hlast.
    apply Hlast. constructor.
  - unfold len in *. rewrite length_fmap in Hle. lia.
Qed.

Lemma sanitize_truncated_no_trailing_underscore_witness :
  sanitize_filename (H := ascii_table) (u "Moby-Dick; or, The Whale") 10
    `prefix_of` u "Moby_Dick__or__The_Whale"
  ∧ last (sanitize_filename (H := ascii_table)
            (u "Moby-Dick; or, The Whale") 10) ≠ Some underscore.
Proof.
  apply (sanitize_truncated_no_trailing_underscore (H := ascii_table)
           (u "Moby-Dick; or, The Whale") 10).
  vm_compute. reflexivity.
Defined.


(* ===================================================================== *)
(** ** Further properties of the navigation index *)
(* ===================================================================== *)

Lemma not_elem_of_forallb (c : char) (s : str) :
  forallb (λ d, negb (N.eqb d c)) s = true → c ∉ s.
Proof.
  rewrite forallb_forall. intros Hall Hin%list_elem_of_In.
  specialize (Hall c Hin). by rewrite N.eqb_refl in Hall.
Qed.

Lemma split_not_nil sep s : split sep s ≠ [].
Proof.
  destruct s as [|c s]; simpl; [done|].
  destruct (N.eqb c sep); [done|]. by destruct (split sep s).
Qed.

Lemma split_pieces sep s : Forall (λ w, sep ∉ w) (split sep s).
Proof.
  induction s as [|c s IH]; simpl.
  - repeat constructor. by intros ?%elem_of_nil.
  - destruct (N.eqb_spec c sep) as [->|Hne].
    + constructor; [by intros ?%elem_of_nil|done].
    + pose proof (split_not_nil sep s).
      destruct (split sep s) as [|w ws]; [done|].
      apply Forall_cons in IH as [Hw Hws]. constructor; [|done].
      intros [->|?]%elem_of_cons; done.
Qed.

Lemma split_first_no_sep sep s : sep ∉ split_first sep s.
Proof.
  unfold split_first. pose proof (split_pieces sep s) as Hall.
  destruct (split sep s) as [|w ws]; simpl; [by intros ?%elem_of_nil|].
  by apply Forall_cons in Hall as [? _].
Qed.

Lemma split_last_no_sep sep s : sep ∉ split_last sep s.
Proof.
  unfold split_last. pose proof (split_pieces sep s) as Hall.
  destruct (last (split sep s)) as [w|] eqn:Hlast; simpl;
    [|by intros ?%elem_of_nil].
  rewrite Forall_forall in Hall. by apply Hall, last_Some_elem_of.
Qed.

Lemma split_first_prefix sep s : split_first sep s `prefix_of` s.
Proof.
  unfold split_first. induction s as [|c s IH]; simpl; [done|].
  destruct (N.eqb c sep); simpl; [apply prefix_nil|].
  destruct (split sep s) as [|w ws]; simpl in *.
  - apply prefix_cons, prefix_nil.
  - by apply prefix_cons.
Qed.

Lemma split_no_sep sep s : sep ∉ s → split sep s = [s].
Proof.
  induction s as [|c s IH]; simpl; [done|]. intros Hnot.
  destruct (N.eqb_spec c sep) as [->|Hne]; [by destruct Hnot; left|].
  rewrite IH; [done|]. intros ?. apply Hnot. by right.
Qed.

Lemma split_app_sep sep a b :
  sep ∉ a → split sep (a ++ sep :: b) = a :: split sep b.
Proof.
  induction a as [|c a IH]; simpl; intros Hnot.
  - by rewrite N.eqb_refl.
  - destruct (N.eqb_spec c sep) as [->|Hne]; [by destruct Hnot; left|].
    rewrite IH; [done|]. intros ?. apply Hnot. by right.
Qed.

Lemma split_first_app sep a b :
  sep ∉ a → split_first sep (a ++ sep :: b) = a.
Proof. intros Ha. unfold split_first. by rewrite split_app_sep. Qed.

Lemma split_app sep a b :
  split sep (a ++ sep :: b) = split sep a ++ split sep b.
Proof.
  induction a as [|c a IH]; simpl.
  - by rewrite N.eqb_refl.
  - rewrite IH. pose proof (split_not_nil sep a).
    destruct (N.eqb c sep); [done|]. by destruct (split sep a).
Qed.

Lemma split_last_app sep a b :
  sep ∉ b → split_last sep (a ++ sep :: b) = b.
Proof.
  intros Hb. unfold split_last.
  by rewrite split_app, (split_no_sep sep b), last_snoc.
Qed.

(** X4: the key under which the driver looks an item up holds neither a
    ["/"] nor a ["#"]; it is the part of the item's name after the last
    ["/"], up to the first ["#"] of that part: the name itself when the
    name has neither character, and [file] for a name [dir/file]. *)
Theorem lookup_key_is_bare_file_name (epub_item : EpubItem) :
  ((47%N ∉ lookup_key epub_item) ∧ (35%N ∉ lookup_key epub_item))
  ∧ ((47%N ∉ get_name epub_item) → (35%N ∉ get_name epub_item) →
     lookup_key epub_item = get_name epub_item)
  ∧ (∀ dir file,
       get_name epub_item = dir ++ 47%N :: file →
       (47%N ∉ file) → (35%N ∉ file) →
       lookup_key epub_item = file).
Proof.
  unfold lookup_key. split; [split|split].
  - intros Hin. apply (split_last_no_sep 47%N (get_name epub_item)).
    destruct (split_first_prefix 35%N (split_last 47%N (get_name epub_item)))
      as [k ->].
    apply elem_of_app. by left.
  - apply split_first_no_sep.
  - intros Hslash Hhash. unfold split_first, split_last.
    rewrite (split_no_sep 47%N) by done. simpl.
    by rewrite (split_no_sep 35%N).
  - intros dir file -> Hslash Hhash.
    rewrite split_last_app by done. unfold split_first.
    by rewrite split_no_sep.
Qed.

Lemma lookup_key_is_bare_file_name_witness :
  lookup_key item_ch1 = u "ch1.xhtml".
Proof.
  apply (proj2 (proj2 (lookup_key_is_bare_file_name item_ch1))
           (u "Text") (u "ch1.xhtml")).
  - reflexivity.
  - apply not_elem_of_forallb. reflexivity.
  - apply not_elem_of_forallb. reflexivity.
Defined.

Section NavIndex.
Context `{Unicode} `{MarkupParser}.









End NavIndex.




Section NavExamples.
#[local] Existing Instance ascii_table.
#[local] Existing Instance posix_paths.




End NavExamples.

(* ===================================================================== *)
(** ** Further properties of the title resolution *)
(* ===================================================================== *)

Lemma find_Some_matches matches soup e :
  find matches soup = Some e → e ∈ descendants soup ∧ matches (node e) = true.
Proof.
  unfold find, find_all. rewrite head_filter.
  intros [Hin Hm]%find_some. by apply list_elem_of_In in Hin.
Qed.

Lemma find_None_no_element matches soup :
  find matches soup = None ↔ no_element matches soup.
Proof.
  split; [|apply find_no_element].
  unfold find, find_all, no_element. rewrite head_filter, Forall_forall.
  intros Hnone e He%list_elem_of_In.
  exact (List.find_none _ _ Hnone e He).
Qed.

Lemma find_qualifying_em `{Unicode} soup :
  List.find is_likely_title (find_all (named [u "em"]) soup)
  = List.find qualifying_em (descendants soup).
Proof. unfold find_all. by rewrite find_filter. Qed.

(** X8: the title cascade finds no element exactly when the tree has no
    heading, no title-class element and no [em] element that
    [is_likely_title] accepts. *)
Theorem no_chapter_title_iff `{Unicode} (soup : PageElement) :
  find_chapter_title soup = None
  ↔ no_element (named headings) soup ∧ no_title_class soup
    ∧ no_qualifying_em soup.
Proof.
  split; [|intros (? & ? & ?); by apply find_chapter_title_none].
  unfold find_chapter_title, no_title_class, no_qualifying_em.
  rewrite find_qualifying_em.
  destruct (find (named headings) soup) eqn:Hh; [done|].
  destruct (find (named_with_class (u "p") (u "title")) soup) eqn:Hp; [done|].
  destruct (find (named_with_class (u "div") (u "chapter-title")) soup)
    eqn:Hd; [done|].
  destruct (find (named_with_class (u "span") (u "chapter-title")) soup)
    eqn:Hs; [done|].
  cbn. intros Hem. rewrite <- !find_None_no_element.
  repeat split; try done.
  rewrite Forall_forall. intros e He%list_elem_of_In.
  exact (List.find_none _ _ Hem e He).
Qed.

(** X9: the element that gives the title is an element of the tree, and it
    is a heading, or a [p] of class [title], or a [div] or [span] of class
    [chapter-title], or an [em] element that [is_likely_title] accepts;
    the title is its stripped text, whatever the navigation index and the
    intrinsic title are. *)
Theorem chapter_title_element_kinds `{Unicode} (soup : PageElement)
    (e : Element) :
  find_chapter_title soup = Some e →
  e ∈ descendants soup
  ∧ (named headings (node e) = true
     ∨ named_with_class (u "p") (u "title") (node e) = true
     ∨ named_with_class (u "div") (u "chapter-title") (node e) = true
     ∨ named_with_class (u "span") (u "chapter-title") (node e) = true
     ∨ qualifying_em e = true)
  ∧ ∀ nav_titles epub_item,
      resolve_title nav_titles epub_item soup = get_text [] true (node e).
Proof.
  intros Hfind. split; [|split; [|intros; by apply resolve_title_element]];
    revert Hfind; unfold find_chapter_title; rewrite find_qualifying_em.
  all: destruct (find (named headings) soup) eqn:Hh;
    [intros [= ->]; apply find_Some_matches in Hh as [? ?]; eauto|].
  all: destruct (find (named_with_class (u "p") (u "title")) soup) eqn:Hp;
    [intros [= ->]; apply find_Some_matches in Hp as [? ?]; eauto|].
  all: destruct (find (named_with_class (u "div") (u "chapter-title")) soup)
    eqn:Hd; [intros [= ->]; apply find_Some_matches in Hd as [? ?]; eauto 6|].
  all: destruct (find (named_with_class (u "span") (u "chapter-title")) soup)
    eqn:Hs; [intros [= ->]; apply find_Some_matches in Hs as [? ?]; eauto 6|].
  all: cbn; intros [Hin Hq]%find_some; apply list_elem_of_In in Hin; eauto 7.
Qed.

(** X10: among the title-class elements the kind decides, not the
    position: without a heading, the first [p] of class [title] gives the
    title even when a [div] or [span] of class [chapter-title] or an
    accepted [em] stands before it; without such a [p], the first [div] of
    class [chapter-title]; without both, the first [span] of class
    [chapter-title]. *)
Theorem title_class_order `{Unicode} (soup : PageElement) (e : Element) :
  no_element (named headings) soup →
  (first_element (λ y, named_with_class (u "p") (u "title") (node y)) soup e →
   find_chapter_title soup = Some e)
  ∧ (no_element (named_with_class (u "p") (u "title")) soup →
     first_element
       (λ y, named_with_class (u "div") (u "chapter-title") (node y)) soup e →
     find_chapter_title soup = Some e)
  ∧ (no_element (named_with_class (u "p") (u "title")) soup →
     no_element (named_with_class (u "div") (u "chapter-title")) soup →
     first_element
       (λ y, named_with_class (u "span") (u "chapter-title") (node y)) soup e →
     find_chapter_title soup = Some e).
Proof.
  intros Hh%find_no_element. unfold find_chapter_title. rewrite Hh.
  split; [|split].
  - intros Hp%find_first_element. by rewrite Hp.
  - intros Hp%find_no_element Hd%find_first_element. by rewrite Hp, Hd.
  - intros Hp%find_no_element Hd%find_no_element Hs%find_first_element.
    by rewrite Hp, Hd, Hs.
Qed.

Section TitleExamples.
#[local] Existing Instance ascii_table.

Lemma no_chapter_title_iff_witness : find_chapter_title soup_plain = None.
Proof.
  apply (proj2 (no_chapter_title_iff soup_plain)).
  split; [|split].
  - apply no_element_forallb. reflexivity.
  - repeat split; apply no_element_forallb; reflexivity.
  - apply no_qualifying_em_forallb. reflexivity.
Defined.

Lemma chapter_title_element_kinds_witness :
  em_carpet_bag ∈ descendants soup_em
  ∧ resolve_title ∅ item_ch1 soup_em = u "The Carpet-Bag".
Proof.
  assert (find_chapter_title soup_em = Some em_carpet_bag) as Hfind
    by reflexivity.
  destruct (chapter_title_element_kinds soup_em em_carpet_bag Hfind)
    as (Hin & _ & Htitle).
  split; [exact Hin|]. etrans; [apply Htitle|reflexivity].
Defined.

Lemma title_class_order_witness :
  find_chapter_title soup_classes
  = Some {| node := elem_class "p" "title" [text "Loomings"];
            parent := soup_classes |}.
Proof.
  assert (no_element (named headings) soup_classes) as Hh
    by (apply no_element_forallb; reflexivity).
  apply (proj1 (title_class_order soup_classes
                  {| node := elem_class "p" "title" [text "Loomings"];
                     parent := soup_classes |} Hh)).
  apply first_element_find. reflexivity.
Defined.

End TitleExamples.

(* ===================================================================== *)
(** ** Further properties of the segmentation driver *)
(* ===================================================================== *)

Lemma lstrip_with_nil p s :
  lstrip_with p s = [] ↔ Forall (λ c, p c = true) s.
Proof.
  induction s as [|c s IH]; simpl; [by split|].
  destruct (p c) eqn:Hc.
  - rewrite IH. split; [by constructor|]. by intros [_ ?]%Forall_cons.
  - split; [done|]. intros [? _]%Forall_cons. congruence.
Qed.

Lemma rstrip_with_nil p s :
  rstrip_with p s = [] ↔ Forall (λ c, p c = true) s.
Proof.
  unfold rstrip_with. split.
  - intros Hnil. apply (f_equal reverse) in Hnil.
    rewrite reverse_involutive in Hnil. apply lstrip_with_nil in Hnil.
    rewrite Forall_forall in *. intros c Hc. apply Hnil.
    exact (proj2 (elem_of_reverse c s) Hc).
  - intros Hall. rewrite (proj2 (lstrip_with_nil p (reverse s))); [done|].
    rewrite Forall_forall in *. intros c Hc.
    apply Hall. exact (proj1 (elem_of_reverse c s) Hc).
Qed.

Lemma strip_nil_iff `{Unicode} s :
  strip s = [] ↔ Forall (λ c, isspace c = true) s.
Proof.
  unfold strip. rewrite rstrip_with_nil. split.
  - intros Hall. apply lstrip_with_nil.
    destruct (lstrip_with isspace s) as [|c t] eqn:Ht; [done|].
    apply Forall_cons in Hall as [Hc _].
    assert (isspace c = false); [|congruence].
    apply (lstrip_with_head isspace s). by rewrite Ht.
  - intros Hall. destruct (lstrip_with_suffix isspace s) as [k Hk].
    rewrite Hk in Hall. by apply Forall_app in Hall as [_ ?].
Qed.

Lemma strip_trimmed `{Unicode} s : trimmed (strip s).
Proof.
  unfold strip, trimmed. split; [|apply rstrip_with_last].
  intros c Hc. apply (lstrip_with_head isspace s).
  destruct (rstrip_with_prefix isspace (lstrip_with isspace s)) as [k Hk].
  rewrite Hk. by destruct (rstrip_with isspace (lstrip_with isspace s)).
Qed.

Lemma trimmed_all_space `{Unicode} s :
  trimmed s → Forall (λ c, isspace c = true) s → s = [].
Proof.
  intros [Hhead _] Hall. destruct s as [|c s]; [done|].
  apply Forall_cons in Hall as [Hc _]. specialize (Hhead c eq_refl).
  congruence.
Qed.

Section Content.
Context `{Unicode} `{MarkupParser}.

Lemma aggregate_of_all_space fs :
  isspace 10%N = true →
  (Forall (λ c, isspace c = true) (aggregate_of fs)
   ↔ Forall (λ f, is_chapter f = false → fragment_text f = []) fs).
Proof.
  intros Hnl. induction fs as [|f fs IH]; [by split|].
  rewrite Forall_cons. destruct (is_chapter f) eqn:Hc.
  - rewrite aggregate_of_chapter, IH by done.
    split; [intros ?; by split|by intros [_ ?]].
  - rewrite aggregate_of_non_chapter, !Forall_app, IH by done.
    split.
    + intros (Htext & _ & Hrest). split; [|done]. intros _.
      apply trimmed_all_space; [apply strip_trimmed|done].
    + intros [Htext Hrest]. rewrite Htext by done.
      repeat split; [done| |done]. by repeat constructor.
Qed.

Lemma chapter_effects_elem nav_titles `{PathLib} output_folder first fs e :
  e ∈ chapter_effects nav_titles output_folder first fs →
  ∃ k f, f ∈ fs ∧ e = write_chapter nav_titles output_folder k f.
Proof.
  unfold chapter_effects. intros (k & f & -> & _ & Hf)%elem_of_zip_with.
  eauto.
Qed.

End Content.

(** X12: every chapter file holds more than 100 characters, and its
    content neither begins nor ends with white space; the only other file
    of a run that returns is the aggregate file. *)
Theorem chapter_files_long_and_trimmed `{Unicode} `{MarkupParser} `{PathLib}
    (book : EpubBook) (output_base_folder : Path) (log : list Effect)
    (path : Path) (content : str) :
  extract_text_from_epub book output_base_folder = Returned log →
  WriteFile path content ∈ log →
  (100 < len content ∧ trimmed content)
  ∨ (path = aggregate_file book output_base_folder
     ∧ content = aggregate_text book).
Proof.
  intros Hrun Hin.
  destruct (extract_titles_from_nav book) as [nav_titles|] eqn:Hnav;
    [|unfold extract_text_from_epub in Hrun; by rewrite Hnav in Hrun].
  rewrite (extract_returns _ _ _ Hnav) in Hrun. injection Hrun as <-.
  apply elem_of_cons in Hin as [?|Hin]; [done|].
  apply elem_of_app in Hin as [Hin|Hin].
  - left.
    apply chapter_effects_elem in Hin as (k & f & Hf & Heq).
    unfold write_chapter in Heq. injection Heq as -> ->.
    unfold chapters in Hf. apply list_elem_of_In, filter_In in Hf as [_ Hc].
    split; [|apply strip_trimmed].
    unfold is_chapter, min_content_length in Hc. lia.
  - right. destruct (truthy _); [|by apply elem_of_nil in Hin].
    apply list_elem_of_singleton in Hin. by injection Hin as -> ->.
Qed.

(** X13: with the line feed among the white space, a run whose index
    builds ends without an aggregate file exactly when every non-chapter
    fragment has an empty text, and with the aggregate file exactly when
    some non-chapter fragment has a non-empty text. *)
Theorem aggregate_iff_some_text `{Unicode} `{MarkupParser} `{PathLib}
    (book : EpubBook) (output_base_folder : Path) (nav_titles : gmap str str) :
  isspace 10%N = true →
  extract_titles_from_nav book = Some nav_titles →
  (extract_text_from_epub book output_base_folder
   = Returned (chapter_log book nav_titles output_base_folder)
   ↔ Forall (λ f, fragment_text f = []) (non_chapters book))
  ∧ (extract_text_from_epub book output_base_folder
     = Returned (chapter_log book nav_titles output_base_folder
                 ++ [WriteFile (aggregate_file book output_base_folder)
                       (aggregate_text book)])
     ↔ Exists (λ f, fragment_text f ≠ []) (non_chapters book)).
Proof.
  intros Hnl Hnav. rewrite (extract_returns _ _ _ Hnav).
  assert (strip (aggregate_text book) = []
          ↔ Forall (λ f, fragment_text f = []) (non_chapters book)) as Hiff.
  { rewrite strip_nil_iff. unfold aggregate_text.
    rewrite aggregate_of_all_space by done. unfold non_chapters.
    rewrite !Forall_forall. split.
    - intros Hall f [Hf Hc%negb_true_iff]%list_elem_of_In%filter_In.
      apply Hall; [by apply list_elem_of_In|done].
    - intros Hall f Hf Hc. apply Hall, list_elem_of_In, filter_In.
      split; [by apply list_elem_of_In|by rewrite Hc]. }
  destruct (truthy (strip (aggregate_text book))) eqn:Htext.
  - apply truthy_true in Htext.
    assert (¬ Forall (λ f, fragment_text f = []) (non_chapters book)) as Hsome
      by (by rewrite <- Hiff).
    split; split; [| | |done].
    + intros [= Heq]. by apply app_singleton_neq in Heq.
    + by intros ?.
    + intros _. apply not_Forall_Exists in Hsome; [|apply _].
      eapply Exists_impl; [exact Hsome|]. by intros f Hf.
  - assert (strip (aggregate_text book) = []) as Hempty
      by (by destruct (strip (aggregate_text book))).
    apply Hiff in Hempty. rewrite app_nil_r. split; split; [done|done| |].
    + intros [= Heq]. symmetry in Heq. by apply app_singleton_neq in Heq.
    + intros Hsome. exfalso.
      eapply (Exists_not_Forall (λ f, fragment_text f = []));
        [|exact Hempty]. eapply Exists_impl; [exact Hsome|]. by intros f Hf.
Qed.

Section DriverExamples.
#[local] Existing Instance ascii_table.
#[local] Existing Instance parser_moby.
#[local] Existing Instance posix_paths.

Lemma chapter_files_long_and_trimmed_witness :
  (100 < len (replicate 101 120%N) ∧ trimmed (replicate 101 120%N))
  ∨ (posix "out/Moby_Dick__or__The_Whale/002_Untitled.txt"
     = aggregate_file book_moby (posix "out")
     ∧ replicate 101 120%N = aggregate_text book_moby).
Proof.
  destruct moby_dick_log as [_ Hrun].
  apply (chapter_files_long_and_trimmed book_moby (posix "out") _ _ _ Hrun).
  do 2 right. left.
Defined.

Lemma aggregate_iff_some_text_witness :
  extract_text_from_epub book_moby (posix "out")
  = Returned (chapter_log book_moby ∅ (posix "out")
              ++ [WriteFile (aggregate_file book_moby (posix "out"))
                    (aggregate_text book_moby)]).
Proof.
  assert (isspace 10%N = true) as Hnl by reflexivity.
  assert (extract_titles_from_nav book_moby = Some ∅) as Hnav by reflexivity.
  apply (proj2 (aggregate_iff_some_text book_moby (posix "out") ∅ Hnl Hnav)).
  left. vm_compute. discriminate.
Defined.

End DriverExamples.

Lemma format_03_nonneg k :
  0 ≤ k →
  format_03 k
  = replicate (3 - length (uint_chars (N.to_uint (Z.abs_N k))))%nat 48%N
    ++ uint_chars (N.to_uint (Z.abs_N k)).
Proof. intros Hk. unfold format_03. by destruct (Z.ltb_spec k 0); [lia|]. Qed.

Lemma chars_uint_digits d rest :
  chars_uint (uint_chars d ++ 95%N :: rest) = d.
Proof. induction d; simpl; by f_equal. Qed.

Lemma chars_uint_zeros n s :
  N.of_uint (chars_uint (replicate n 48%N ++ s)) = N.of_uint (chars_uint s).
Proof. induction n as [|n IH]; [done|]. exact IH. Qed.

Lemma leading_number_format_03 k rest :
  0 ≤ k → leading_number (format_03 k ++ u "_" ++ rest) = k.
Proof.
  intros Hk. unfold leading_number. rewrite format_03_nonneg by done.
  rewrite <- app_assoc, chars_uint_zeros.
  change (u "_" ++ rest) with (95%N :: rest).
  rewrite chars_uint_digits, DecimalN.Unsigned.of_to. lia.
Qed.

Lemma format_03_three_digits k :
  0 ≤ k ≤ 999 → length (format_03 k) = 3%nat.
Proof.
  intros Hk.
  assert (forallb (λ k, Nat.eqb (length (format_03 k)) 3) (seqZ 0 1000) = true)
    as Hall by (vm_compute; reflexivity).
  rewrite forallb_forall in Hall.
  apply Nat.eqb_eq, Hall, list_elem_of_In, elem_of_seqZ. lia.
Qed.

Section Names.
Context `{Unicode} `{PathLib}.

Lemma chapter_file_name_div output_folder k title :
  chapter_file_name output_folder k title
  = path_div output_folder (chapter_name output_folder k title).
Proof.
  unfold chapter_file_name, chapter_name. cbn zeta. by destruct (_ >? 255).
Qed.

Lemma chapter_name_shape output_folder k title :
  ∃ n, chapter_name output_folder k title
       = format_03 k ++ u "_" ++ sanitize_filename title n ++ u ".txt"
       ∧ (n = 100 ∨ n = 100 - (len (format_03 k ++ u "_") + len (u ".txt"))).
Proof.
  unfold chapter_name. cbn zeta. destruct (_ >? 255); eauto.
Qed.

Lemma leading_number_chapter_name output_folder k title :
  0 ≤ k → leading_number (chapter_name output_folder k title) = k.
Proof.
  intros Hk. destruct (chapter_name_shape output_folder k title) as (n & -> & _).
  by apply leading_number_format_03.
Qed.

End Names.

(** X14: the counter can be read back from the name of a chapter file:
    the name begins with the counter in decimal, at least three digits
    wide, followed by an underscore, so that names written for different
    counters differ. *)
Theorem chapter_name_counter `{Unicode} `{PathLib} (output_folder : Path)
    (k k' : Z) (title title' : str) :
  0 ≤ k → 0 ≤ k' →
  leading_number (chapter_name output_folder k title) = k
  ∧ (chapter_name output_folder k title = chapter_name output_folder k' title'
     → k = k')
  ∧ chapter_file_name output_folder k title
    = path_div output_folder (chapter_name output_folder k title).
Proof.
  intros Hk Hk'. split; [by apply leading_number_chapter_name|].
  split; [|apply chapter_file_name_div].
  intros Heq. apply (f_equal leading_number) in Heq.
  by rewrite !leading_number_chapter_name in Heq.
Qed.

Lemma chapter_name_counter_witness :
  leading_number
    (chapter_name (H := ascii_table) (H0 := posix_paths) (posix "out") 12
       (u "Chapter 1: Loomings")) = 12.
Proof.
  assert (0 ≤ 12) as Hk by lia.
  exact (proj1 (chapter_name_counter (H := ascii_table) (H0 := posix_paths)
                  (posix "out") 12 12 (u "Chapter 1: Loomings")
                  (u "Chapter 1: Loomings") Hk Hk)).
Defined.

(** X15: for a counter from 0 to 999 the name of a chapter file is three
    digits, an underscore, at most 100 characters that are alphanumeric or
    underscores, and [".txt"]: at most 108 characters; when the first
    path is longer than 255 characters the name has at most 100. *)
Theorem chapter_name_bounded `{Unicode} `{PathLib} (output_folder : Path)
    (k : Z) (title : str) :
  0 ≤ k ≤ 999 →
  ∃ safe_title,
    chapter_name output_folder k title
    = format_03 k ++ u "_" ++ safe_title ++ u ".txt"
    ∧ length (format_03 k) = 3%nat
    ∧ Forall (λ c, isalnum c = true ∨ c = underscore) safe_title
    ∧ len safe_title ≤ 100
    ∧ len (chapter_name output_folder k title) ≤ 108
    ∧ (255 < len (path_str
                    (path_div output_folder
                       (format_03 k ++ u "_" ++ sanitize_filename title 100
                        ++ u ".txt"))) →
       len (chapter_name output_folder k title) ≤ 100).
Proof.
  intros Hk. pose proof (format_03_three_digits k Hk) as Hthree.
  unfold chapter_name. cbn zeta.
  assert (len (format_03 k ++ u "_") + len (u ".txt") = 8) as Hfix.
  { unfold len. rewrite length_app, Hthree. reflexivity. }
  rewrite Hfix.
  destruct (Z.gtb_spec (len (path_str (path_div output_folder
              (format_03 k ++ u "_" ++ sanitize_filename title 100
               ++ u ".txt")))) 255) as [Hlong|Hshort].
  - exists (sanitize_filename title (100 - 8)).
    pose proof (sanitize_length_le title (100 - 8) ltac:(lia)) as Hlen.
    split; [done|]. split; [done|]. split; [apply sanitize_safe_chars|].
    unfold len in *. rewrite !length_app, Hthree.
    change (length (u "_")) with 1%nat. change (length (u ".txt")) with 4%nat.
    repeat split; try lia.
  - exists (sanitize_filename title 100).
    pose proof (sanitize_length_le title 100 ltac:(lia)) as Hlen.
    split; [done|]. split; [done|]. split; [apply sanitize_safe_chars|].
    unfold len in *. rewrite !length_app, Hthree.
    change (length (u "_")) with 1%nat. change (length (u ".txt")) with 4%nat.
    repeat split; try lia.
Qed.

Lemma chapter_name_bounded_witness :
  ∃ safe_title,
    chapter_name (H := ascii_table) (H0 := posix_paths) (posix "out") 7
      (u "Chapter 1: Loomings")
    = format_03 7 ++ u "_" ++ safe_title ++ u ".txt"
    ∧ length (format_03 7) = 3%nat
    ∧ Forall (λ c, isalnum (Unicode := ascii_table) c = true ∨ c = underscore)
        safe_title
    ∧ len safe_title ≤ 100
    ∧ len (chapter_name (H := ascii_table) (H0 := posix_paths) (posix "out") 7
             (u "Chapter 1: Loomings")) ≤ 108
    ∧ (255 < len (path_str (PathLib := posix_paths)
                    (path_div (posix "out")
                       (format_03 7 ++ u "_"
                        ++ sanitize_filename (H := ascii_table)
                             (u "Chapter 1: Loomings") 100
                        ++ u ".txt"))) →
       len (chapter_name (H := ascii_table) (H0 := posix_paths) (posix "out") 7
              (u "Chapter 1: Loomings")) ≤ 100).
Proof.
  apply (chapter_name_bounded (H := ascii_table) (H0 := posix_paths)
           (posix "out") 7 (u "Chapter 1: Loomings")). lia.
Defined.

Section Paths.
Context `{Unicode} `{MarkupParser} `{PathLib}.



End Paths.


(** X17: the first spine entry is never read: two books that differ only in
    their first spine entry give the same outcome, whatever that entry
    names. *)
Theorem first_spine_entry_ignored `{Unicode} `{MarkupParser} `{PathLib}
    (book : EpubBook) (output_base_folder : Path)
    (first first' : str * str) (rest : list (str * str)) :
  spine book = first :: rest →
  extract_text_from_epub (with_spine book (first' :: rest)) output_base_folder
  = extract_text_from_epub book output_base_folder.
Proof.
  intros Hspine. unfold extract_text_from_epub, spine_after_first.
  rewrite Hspine. reflexivity.
Qed.

(** X18: a book whose spine has at most one entry gives no file: however
    the run ends, its only effect is the creation of the directory. *)
Theorem short_spine_writes_nothing `{Unicode} `{MarkupParser} `{PathLib}
    (book : EpubBook) (output_base_folder : Path) :
  (length (spine book) ≤ 1)%nat →
  log_of (extract_text_from_epub book output_base_folder)
  = [Mkdir (output_folder_of book output_base_folder)].
Proof.
  intros Hshort. unfold extract_text_from_epub, spine_after_first.
  assert (drop 1 (spine book) = []) as ->.
  { destruct (spine book) as [|e [|e' es]]; [done..|]. cbn in Hshort. lia. }
  by destruct (extract_titles_from_nav book).
Qed.


Section PathExamples.
#[local] Existing Instance ascii_table.
#[local] Existing Instance parser_moby.
#[local] Existing Instance posix_paths.



Lemma first_spine_entry_ignored_witness :
  extract_text_from_epub
    (with_spine book_moby
       [(u "loomings", u "yes"); (u "copyright", u "yes"); (u "x100", u "yes");
        (u "loomings", u "yes"); (u "x101", u "yes")])
    (posix "out")
  = extract_text_from_epub book_moby (posix "out").
Proof.
  apply (first_spine_entry_ignored book_moby (posix "out")
           (u "nav", u "yes") (u "loomings", u "yes")).
  reflexivity.
Defined.

Lemma short_spine_writes_nothing_witness :
  log_of (extract_text_from_epub
            (with_spine book_moby [(u "loomings", u "yes")]) (posix "out"))
  = [Mkdir (posix "out/Moby_Dick__or__The_Whale")].
Proof.
  etrans.
  - apply (short_spine_writes_nothing
             (with_spine book_moby [(u "loomings", u "yes")]) (posix "out")).
    cbn. lia.
  - reflexivity.
Defined.

End PathExamples.

(* ===================================================================== *)
(** ** Properties of the batch driver *)
(* ===================================================================== *)

Section Batch.
Context `{Unicode} `{MarkupParser} `{PathLib}.

Lemma process_epub_files_succeeding files rest output_folder events :
  Forall (file_succeeds output_folder) files →
  process_epub_files (files ++ rest) output_folder events
  = process_epub_files rest output_folder
      (events ++ flat_map (file_events output_folder) files).
Proof.
  revert events. induction files as [|epub_file files IH]; intros events.
  - intros _. cbn. by rewrite app_nil_r.
  - intros [(book & log & Hread & Hrun) Hfiles]%Forall_cons.
    cbn [app process_epub_files flat_map]. rewrite Hread, Hrun.
    rewrite IH by done. unfold file_events at 2. rewrite Hread, Hrun.
    cbn [log_of]. f_equal. rewrite <- !app_assoc. reflexivity.
Qed.

End Batch.

(** X20: when every file is read and every run returns, the batch returns;
    it creates the output directory, then announces and processes the
    files one after the other in the order given, each run with the
    effects it has on its own, and ends with the closing line. *)
Theorem batch_of_succeeding_files `{Unicode} `{MarkupParser} `{PathLib}
    (files : list (str * option EpubBook)) (output_folder : Path) :
  Forall (file_succeeds output_folder) files →
  process_all_epubs files output_folder
  = BatchReturned
      (Fs (Mkdir output_folder)
       :: flat_map (file_events output_folder) files
       ++ [Print (u "Processing complete.")]).
Proof.
  intros Hfiles. unfold process_all_epubs.
  rewrite <- (app_nil_r files) at 1.
  by rewrite process_epub_files_succeeding.
Qed.

(** X21: the first file that cannot be read, or whose run raises, ends the
    batch: the files before it are processed in full, the effects of the
    failing run up to its exception remain, and no later file is touched,
    whatever it is; the closing line is not printed. *)
Theorem batch_stops_at_first_failure `{Unicode} `{MarkupParser} `{PathLib}
    (before after : list (str * option EpubBook))
    (failing : str * option EpubBook) (output_folder : Path) :
  Forall (file_succeeds output_folder) before →
  ¬ file_succeeds output_folder failing →
  process_all_epubs (before ++ failing :: after) output_folder
  = BatchRaised
      (Fs (Mkdir output_folder)
       :: flat_map (file_events output_folder) before
       ++ file_events output_folder failing).
Proof.
  intros Hbefore Hfailing. unfold process_all_epubs.
  rewrite process_epub_files_succeeding by done.
  cbn [process_epub_files].
  destruct failing.2 as [book|] eqn:Hread.
  - destruct (extract_text_from_epub book output_folder) as [log|log] eqn:Hrun.
    + destruct Hfailing. by exists book, log.
    + assert (file_events output_folder failing
              = Print (u "Processing '" ++ failing.1 ++ u "'...")
                :: (Fs <$> log)) as ->
        by (unfold file_events; by rewrite Hread, Hrun).
      f_equal; rewrite <- ?app_assoc; reflexivity.
  - assert (file_events output_folder failing
            = [Print (u "Processing '" ++ failing.1 ++ u "'...")]) as ->
      by (unfold file_events; by rewrite Hread).
    f_equal; rewrite <- ?app_assoc; reflexivity.
Qed.

Section BatchExamples.
#[local] Existing Instance ascii_table.
#[local] Existing Instance posix_paths.

Lemma batch_of_succeeding_files_witness :
  process_all_epubs (H0 := parser_toc) [(u "moby.epub", Some book_toc)]
    (posix "out")
  = BatchReturned
      [Fs (Mkdir (posix "out"));
       Print (u "Processing 'moby.epub'...");
       Fs (Mkdir (posix "out/Moby_Dick__or__The_Whale"));
       Fs (WriteFile
             (posix "out/Moby_Dick__or__The_Whale/000_non_chapter_content.txt")
             (u "Call me Ishmael." ++ [10%N; 10%N]));
       Print (u "Processing complete.")].
Proof.
  etrans.
  - apply (batch_of_succeeding_files (H0 := parser_toc)
             [(u "moby.epub", Some book_toc)] (posix "out")).
    repeat constructor. eexists _, _. split; reflexivity.
  - reflexivity.
Defined.

Lemma batch_stops_at_first_failure_witness :
  process_all_epubs (H0 := parser_toc)
    [(u "a.epub", None); (u "b.epub", Some book_toc)] (posix "out")
  = BatchRaised [Fs (Mkdir (posix "out")); Print (u "Processing 'a.epub'...")].
Proof.
  etrans.
  - apply (batch_stops_at_first_failure (H0 := parser_toc)
             [] [(u "b.epub", Some book_toc)] (u "a.epub", None) (posix "out")).
    + constructor.
    + intros (book & log & Hread & _). discriminate Hread.
  - reflexivity.
Defined.

End BatchExamples.
